(** * Todo Manager Pro: the task pipeline, embedded and verified

    A shallow embedding of
      - [backend/models/Todo.js]   (the Mongoose schema),
      - [backend/server.js]        (the Express handlers),
      - [frontend/app.js]          (the client cache, undo slot and
                                    filter/search/sort engine),
    followed by the properties the specification states about them.

    Conventions.
      - JavaScript strings are sequences of code units; the model covers
        the code units below 256 ([string] of the Standard Library).
      - Instants ([Date]) are milliseconds since the epoch, in [Z].
      - An ObjectId is the number its twelve bytes denote, in [N].
      - Stateful code is written in state-passing style; a [throw] is an
        [Err] outcome. *)

From Stdlib Require Import ZArith NArith List String Ascii Bool Lia.
From Stdlib Require Import Permutation Sorted.
Import ListNotations.
Local Open Scope string_scope.
Local Open Scope list_scope.
Local Open Scope Z_scope.

(* ================================================================== *)
(** * JavaScript primitives used by the program                        *)
(* ================================================================== *)

Module Js.

(** [!s] for a string: only the empty string is falsy. *)
Definition truthy (s : string) : bool :=
  match s with EmptyString => false | String _ _ => true end.

(** [a || b] on a value that is [undefined] or a string. *)
Definition or_default (v : option string) (d : string) : string :=
  match v with
  | Some s => if truthy s then s else d
  | None => d
  end.

(** White space of [String.prototype.trim], below code unit 256:
    TAB, LF, VT, FF, CR, SPACE and NBSP. *)
Definition is_white_space (c : ascii) : bool :=
  let n := nat_of_ascii c in
  (Nat.leb 9 n && Nat.leb n 13) || Nat.eqb n 32 || Nat.eqb n 160.

Fixpoint drop_white (l : list ascii) : list ascii :=
  match l with
  | [] => []
  | c :: r => if is_white_space c then drop_white r else l
  end.

(** [String.prototype.trim]. *)
Definition trim (s : string) : string :=
  string_of_list_ascii
    (rev (drop_white (rev (drop_white (list_ascii_of_string s))))).

(** [String.prototype.toLowerCase] on one code unit: A-Z, and the
    Latin-1 capitals 192-222 except the multiplication sign 215. *)
Definition lower_char (c : ascii) : ascii :=
  let n := nat_of_ascii c in
  if (Nat.leb 65 n && Nat.leb n 90)
     || (Nat.leb 192 n && Nat.leb n 222 && negb (Nat.eqb n 215))
  then ascii_of_nat (n + 32) else c.

Fixpoint toLowerCase (s : string) : string :=
  match s with
  | EmptyString => EmptyString
  | String c r => String (lower_char c) (toLowerCase r)
  end.

(** [hay.includes(needle)]: [needle] occurs in [hay] as a substring. *)
Fixpoint includes (hay needle : string) : bool :=
  String.prefix needle hay ||
  match hay with
  | EmptyString => false
  | String _ r => includes r needle
  end.

(** ** [Array.prototype.sort]

    ECMAScript fixes the result of [sort] (a stable ordering) only for a
    consistent comparison function, and leaves to the engine in which
    order the two elements of a pair are handed to it.  Both choices
    exist: V8 inserts an element by asking [comparefn(item, earlier) < 0],
    SpiderMonkey by asking [comparefn(earlier, item) > 0].  The model is
    the insertion sort of either engine, with that choice explicit.  The
    item walks left one element at a time; an engine that looks for the
    place by bisection finds the same place whenever the comparison is
    transitive on the elements, and facts about the order of the result
    are stated for such comparisons. *)
Inductive engine : Type :=
| ItemFirst    (* comparefn(item, earlier) < 0  moves item to the left *)
| ItemSecond.  (* comparefn(earlier, item) > 0  moves item to the left *)

Section ArraySort.
Context {A : Type}.
Variable e : engine.
Variable comparefn : A -> A -> Z.

(** Does [item] have to move to the left of [earlier]? *)
Definition moves_left (item earlier : A) : bool :=
  match e with
  | ItemFirst => comparefn item earlier <? 0
  | ItemSecond => 0 <? comparefn earlier item
  end.

(** The sorted prefix is held last element first; [item] walks to the
    left while [moves_left] says so. *)
Fixpoint insert_item (item : A) (rprefix : list A) : list A :=
  match rprefix with
  | [] => [item]
  | earlier :: rest =>
      if moves_left item earlier
      then earlier :: insert_item item rest
      else item :: rprefix
  end.

Definition sort_rev (l : list A) : list A :=
  fold_left (fun acc item => insert_item item acc) l [].

Definition sort (l : list A) : list A := rev (sort_rev l).
End ArraySort.

End Js.

(* ================================================================== *)
(** * The task entity ([models/Todo.js])                                *)
(* ================================================================== *)

Definition ObjectId := N.

Record Todo : Type := mkTodo {
  _id : ObjectId;
  title : string;
  status : string;
  priority : string;
  category : string;
  dueDate : option Z;
  createdAt : Z
}.

Definition status_enum : list string := ["todo"; "progress"; "completed"].
Definition priority_enum : list string := ["low"; "medium"; "high"].
Definition category_enum : list string :=
  ["general"; "work"; "personal"; "shopping"; "health"; "study"].

Definition in_enum (vals : list string) (v : string) : bool :=
  existsb (String.eqb v) vals.

(** Outcome of code that may throw. *)
Inductive result (E A : Type) : Type :=
| Ok (a : A)
| Err (e : E).
Arguments Ok {E A} a.
Arguments Err {E A} e.

(* ================================================================== *)
(** * Mongoose, as far as the program uses it                           *)
(* ================================================================== *)

Module Mongoose.

(** A value offered for the [Date] path [dueDate]. *)
Inductive dateInput : Type :=
| DNull                 (* null *)
| DEmpty                (* the empty string *)
| DInstant (ms : Z)     (* a string or Date denoting this instant *)
| DGarbage.             (* a non-empty string that is no date *)

(** [!d] for such a value. *)
Definition date_truthy (d : dateInput) : bool :=
  match d with
  | DNull | DEmpty => false
  | DInstant _ | DGarbage => true
  end.

(** Casting to [Date]: null and the empty string become null, garbage
    is a cast error. *)
Definition castDate (d : dateInput) : option (option Z) :=
  match d with
  | DNull | DEmpty => Some None
  | DInstant ms => Some (Some ms)
  | DGarbage => None
  end.

Inductive error : Type :=
| ValidationError (path : string)
| StoreFault.

(** The collection: its documents in insertion order, and the source of
    fresh ObjectIds. *)
Record Db : Type := mkDb {
  docs : list Todo;
  nextId : N
}.

(** What the server clock and the persistence connection do during one
    request. *)
Record Env : Type := mkEnv {
  now : Z;
  db_up : bool
}.

(** The object handed to [new Todo(...)]. *)
Record Fields : Type := mkFields {
  f_title : string;
  f_status : string;
  f_priority : string;
  f_category : string;
  f_dueDate : dateInput
}.

(** The update document of [findByIdAndUpdate]: a path is either absent
    or set. *)
Record Updates : Type := mkUpdates {
  u_title : option string;
  u_status : option string;
  u_priority : option string;
  u_category : option string;
  u_dueDate : option dateInput
}.

(** Validators of one [String] path with an [enum]. *)
Definition check_enum (path : string) (vals : list string) (v : string)
  : result error unit :=
  if in_enum vals v then Ok tt else Err (ValidationError path).

(** [required: true] on a string path: the empty string fails. *)
Definition check_required (path : string) (v : string) : result error unit :=
  if Js.truthy v then Ok tt else Err (ValidationError path).

Definition check_date (path : string) (d : dateInput)
  : result error (option Z) :=
  match castDate d with
  | Some v => Ok v
  | None => Err (ValidationError path)
  end.

Definition bind {E A B} (r : result E A) (k : A -> result E B) : result E B :=
  match r with
  | Ok a => k a
  | Err e => Err e
  end.

Notation "x <- r ;; k" := (bind r (fun x => k))
  (at level 61, r at next level, right associativity).

(** [new Todo(fields)]: the schema setters run ([trim] on the title), an
    ObjectId is drawn, [createdAt] takes its default [Date.now].
    Validation is left to [save]; a date that does not cast is kept
    aside for it. *)
Definition construct (env : Env) (f : Fields) (db : Db)
  : (Todo * dateInput) * Db :=
  ((mkTodo (nextId db) (Js.trim (f_title f)) (f_status f) (f_priority f)
           (f_category f) None (now env),
    f_dueDate f),
   mkDb (docs db) (N.succ (nextId db))).

(** [doc.validate()]. *)
Definition validate (d : Todo * dateInput) : result error Todo :=
  let t := fst d in
  _ <- check_required "title" (title t) ;;
  _ <- check_enum "status" status_enum (status t) ;;
  _ <- check_enum "priority" priority_enum (priority t) ;;
  _ <- check_enum "category" category_enum (category t) ;;
  due <- check_date "dueDate" (snd d) ;;
  Ok (mkTodo (_id t) (title t) (status t) (priority t) (category t)
             due (createdAt t)).

(** [doc.save()]: validate, then insert. *)
Definition save (env : Env) (d : Todo * dateInput) (db : Db)
  : result error Todo * Db :=
  match validate d with
  | Err e => (Err e, db)
  | Ok t =>
      if db_up env
      then (Ok t, mkDb (docs db ++ [t]) (nextId db))
      else (Err StoreFault, db)
  end.

Fixpoint findById (id : ObjectId) (l : list Todo) : option Todo :=
  match l with
  | [] => None
  | t :: r => if N.eqb (_id t) id then Some t else findById id r
  end.

(** Replace the first document whose [_id] is [id]. *)
Fixpoint replaceById (id : ObjectId) (t' : Todo) (l : list Todo) : list Todo :=
  match l with
  | [] => []
  | t :: r => if N.eqb (_id t) id then t' :: r else t :: replaceById id t' r
  end.

(** Remove the first document whose [_id] is [id]. *)
Fixpoint removeById (id : ObjectId) (l : list Todo) : list Todo :=
  match l with
  | [] => []
  | t :: r => if N.eqb (_id t) id then r else t :: removeById id r
  end.

Definition check_opt {A B} (chk : A -> result error B) (v : option A)
  : result error (option B) :=
  match v with
  | None => Ok None
  | Some a => b <- chk a ;; Ok (Some b)
  end.

(** Update validators ([runValidators: true]) run on the paths the
    update sets, before the store is asked; the result is the update
    with its values cast. *)
Record CastUpdates : Type := mkCast {
  c_title : option string;
  c_status : option string;
  c_priority : option string;
  c_category : option string;
  c_dueDate : option (option Z)
}.

Definition validate_update (u : Updates) : result error CastUpdates :=
  let ttl := option_map Js.trim (u_title u) in
  _ <- check_opt (check_required "title") ttl ;;
  _ <- check_opt (check_enum "status" status_enum) (u_status u) ;;
  _ <- check_opt (check_enum "priority" priority_enum) (u_priority u) ;;
  _ <- check_opt (check_enum "category" category_enum) (u_category u) ;;
  due <- check_opt (check_date "dueDate") (u_dueDate u) ;;
  Ok (mkCast ttl (u_status u) (u_priority u) (u_category u) due).

Definition set_path {A} (v : option A) (old : A) : A :=
  match v with Some a => a | None => old end.

(** [$set] of the cast update on one document. *)
Definition apply_update (c : CastUpdates) (t : Todo) : Todo :=
  mkTodo (_id t)
         (set_path (c_title c) (title t))
         (set_path (c_status c) (status t))
         (set_path (c_priority c) (priority t))
         (set_path (c_category c) (category t))
         (set_path (c_dueDate c) (dueDate t))
         (createdAt t).

(** [Todo.findByIdAndUpdate(id, updates, { new: true, runValidators: true })]. *)
Definition findByIdAndUpdate (env : Env) (id : ObjectId) (u : Updates) (db : Db)
  : result error (option Todo) * Db :=
  match validate_update u with
  | Err e => (Err e, db)
  | Ok c =>
      if db_up env then
        match findById id (docs db) with
        | None => (Ok None, db)
        | Some t =>
            let t' := apply_update c t in
            (Ok (Some t'), mkDb (replaceById id t' (docs db)) (nextId db))
        end
      else (Err StoreFault, db)
  end.

(** [Todo.findByIdAndDelete(id)]. *)
Definition findByIdAndDelete (env : Env) (id : ObjectId) (db : Db)
  : result error (option Todo) * Db :=
  if db_up env then
    match findById id (docs db) with
    | None => (Ok None, db)
    | Some t => (Ok (Some t), mkDb (removeById id (docs db)) (nextId db))
    end
  else (Err StoreFault, db).

(** [Todo.deleteMany({})]. *)
Definition deleteMany (env : Env) (db : Db) : result error N * Db :=
  if db_up env
  then (Ok (N.of_nat (List.length (docs db))), mkDb [] (nextId db))
  else (Err StoreFault, db).

End Mongoose.

(* ================================================================== *)
(** * The task API ([server.js])                                        *)
(* ================================================================== *)

Module Server.
Import Mongoose.

(** The JSON body of a request whose string fields are absent
    ([undefined]) or hold a string; [dueDate] is absent or holds a
    [dateInput].  Bodies with other JSON values in these fields are
    [JsonBody], below. *)
Record Body : Type := mkBody {
  b_title : option string;
  b_status : option string;
  b_priority : option string;
  b_category : option string;
  b_dueDate : option dateInput
}.

Definition empty_body : Body := mkBody None None None None None.

(** The [:id] segment of a path, as [mongoose.Types.ObjectId.isValid]
    sees it: text that denotes no ObjectId, or the ObjectId denoted. *)
Inductive IdParam : Type :=
| Malformed (text : string)
| WellFormed (id : ObjectId).

Inductive Payload : Type :=
| PError (error : string)
| PTodo (todo : Todo)
| PDeleted (message : string) (todo : Todo)
| PCleared (message : string) (deletedCount : N).

Record Response : Type := mkResponse {
  code : Z;
  payload : Payload
}.

(** [res.status(c).json({ error })]. *)
Definition fail (c : Z) (msg : string) : Response := mkResponse c (PError msg).

(** [dueDate || null]. *)
Definition due_or_null (d : option dateInput) : dateInput :=
  match d with
  | Some v => if date_truthy v then v else DNull
  | None => DNull
  end.

(** [app.post('/api/todos', ...)].  The guard is
    [!title || title.trim() === '']: an absent title is falsy, and so is
    the empty string. *)
Definition post_todos (env : Env) (b : Body) (db : Db) : Response * Db :=
  match b_title b with
  | None => (fail 400 "Title is required", db)
  | Some ttl =>
      if negb (Js.truthy ttl) || String.eqb (Js.trim ttl) ""
      then (fail 400 "Title is required", db)
      else
        let (todo, db1) :=
          construct env
            (mkFields (Js.trim ttl)
                      (Js.or_default (b_status b) "todo")
                      (Js.or_default (b_priority b) "medium")
                      (Js.or_default (b_category b) "general")
                      (due_or_null (b_dueDate b)))
            db in
        match save env todo db1 with
        | (Ok savedTodo, db2) => (mkResponse 201 (PTodo savedTodo), db2)
        | (Err _, db2) => (fail 500 "Failed to create todo", db2)
        end
  end.

(** The [updates] object the PUT handler builds from the body. *)
Definition updates_of (b : Body) : Updates :=
  mkUpdates (option_map Js.trim (b_title b))
            (b_status b) (b_priority b) (b_category b) (b_dueDate b).

(** [app.put('/api/todos/:id', ...)]. *)
Definition put_todo (env : Env) (id : IdParam) (b : Body) (db : Db)
  : Response * Db :=
  match id with
  | Malformed _ => (fail 400 "Invalid todo ID", db)
  | WellFormed oid =>
      match findByIdAndUpdate env oid (updates_of b) db with
      | (Ok (Some updatedTodo), db') => (mkResponse 200 (PTodo updatedTodo), db')
      | (Ok None, db') => (fail 404 "Todo not found", db')
      | (Err _, db') => (fail 500 "Failed to update todo", db')
      end
  end.

(** [app.delete('/api/todos/:id', ...)]. *)
Definition delete_todo (env : Env) (id : IdParam) (db : Db) : Response * Db :=
  match id with
  | Malformed _ => (fail 400 "Invalid todo ID", db)
  | WellFormed oid =>
      match findByIdAndDelete env oid db with
      | (Ok (Some deletedTodo), db') =>
          (mkResponse 200 (PDeleted "Todo deleted successfully" deletedTodo), db')
      | (Ok None, db') => (fail 404 "Todo not found", db')
      | (Err _, db') => (fail 500 "Failed to delete todo", db')
      end
  end.

(** [app.delete('/api/todos', ...)]. *)
Definition delete_todos (env : Env) (db : Db) : Response * Db :=
  match deleteMany env db with
  | (Ok n, db') =>
      (mkResponse 200 (PCleared "All todos cleared successfully" n), db')
  | (Err _, db') => (fail 500 "Failed to clear todos", db')
  end.

(** The requests the client sends. *)
Inductive Request : Type :=
| POST_todos (b : Body)
| PUT_todo (id : IdParam) (b : Body)
| DELETE_todo (id : IdParam)
| DELETE_todos.

Definition handle (env : Env) (rq : Request) (db : Db) : Response * Db :=
  match rq with
  | POST_todos b => post_todos env b db
  | PUT_todo id b => put_todo env id b db
  | DELETE_todo id => delete_todo env id db
  | DELETE_todos => delete_todos env db
  end.

(** [response.ok]: a status in the range 200-299. *)
Definition ok (r : Response) : bool := (200 <=? code r) && (code r <=? 299).

(** A 400-class status. *)
Definition is_4xx (r : Response) : bool := (400 <=? code r) && (code r <=? 499).


End Server.

(* ================================================================== *)
(** * The client ([app.js])                                             *)
(* ================================================================== *)

Module Client.
Import Mongoose Server.

(** [state].  [undoTimeout] tells whether the timer that hides the undo
    snackbar is pending; [slotClears] counts the pending timers of
    [hideUndoSnackbar] that will empty [deletedTodo]. *)
Record State : Type := mkState {
  todos : list Todo;
  currentFilter : string;
  currentSort : string;
  searchQuery : string;
  deletedTodo : option Todo;
  undoTimeout : bool;
  slotClears : nat
}.

(** What the presentation layer is asked to show (message texts are
    kept without their pictographs). *)
Inductive Notice : Type :=
| Toast (message type : string)
| UndoSnackbar (message : string)
| HideUndoSnackbar.

(** The client, the server's collection behind the API, the requests
    sent so far and the notices raised so far. *)
Record World : Type := mkWorld {
  st : State;
  db : Db;
  sent : list Request;
  shown : list Notice
}.

(** What the network and the server do during one request. *)
Record Net : Type := mkNet {
  net_up : bool;
  srv : Env
}.

Definition with_st (f : State -> State) (w : World) : World :=
  mkWorld (f (st w)) (db w) (sent w) (shown w).

Definition set_todos (l : list Todo) (s : State) : State :=
  mkState l (currentFilter s) (currentSort s) (searchQuery s)
          (deletedTodo s) (undoTimeout s) (slotClears s).

Definition set_deletedTodo (d : option Todo) (s : State) : State :=
  mkState (todos s) (currentFilter s) (currentSort s) (searchQuery s)
          d (undoTimeout s) (slotClears s).

Definition set_undoTimeout (b : bool) (s : State) : State :=
  mkState (todos s) (currentFilter s) (currentSort s) (searchQuery s)
          (deletedTodo s) b (slotClears s).

Definition set_slotClears (n : nat) (s : State) : State :=
  mkState (todos s) (currentFilter s) (currentSort s) (searchQuery s)
          (deletedTodo s) (undoTimeout s) n.

Definition notify (n : Notice) (w : World) : World :=
  mkWorld (st w) (db w) (sent w) (shown w ++ [n]).

(** [showToast(message, type)]. *)
Definition showToast (message type : string) (w : World) : World :=
  notify (Toast message type) w.

(** [apiRequest(endpoint, options)]: the request is sent; it throws when
    the fetch does not complete or when [response.ok] is false, and
    returns the JSON payload otherwise. *)
Definition apiRequest (n : Net) (rq : Request) (w : World)
  : result unit Payload * World :=
  let w0 := mkWorld (st w) (db w) (sent w ++ [rq]) (shown w) in
  if net_up n then
    let (response, db') := handle (srv n) rq (db w) in
    let w1 := mkWorld (st w0) db' (sent w0) (shown w0) in
    if ok response then (Ok (payload response), w1) else (Err tt, w1)
  else (Err tt, w0).

(** The task a JSON payload is, when it is one. *)
Definition as_todo (p : Payload) : option Todo :=
  match p with
  | PTodo t => Some t
  | _ => None
  end.

(** [createTodo(todoData)]. *)
Definition createTodo (n : Net) (todoData : Body) (w : World)
  : result unit unit * World :=
  match apiRequest n (POST_todos todoData) w with
  | (Ok p, w1) =>
      match as_todo p with
      | Some newTodo =>
          (Ok tt,
           showToast "Task added successfully!" "success"
             (with_st (fun s => set_todos (newTodo :: todos s) s) w1))
      | None => (Err tt, showToast "Failed to add task" "error" w1)
      end
  | (Err _, w1) => (Err tt, showToast "Failed to add task" "error" w1)
  end.

(** [updateTodo(id, updates)]: on success the cached task with this id,
    when there is one, is replaced in place. *)
Definition updateTodo (n : Net) (id : ObjectId) (updates : Body) (w : World)
  : result unit Todo * World :=
  match apiRequest n (PUT_todo (WellFormed id) updates) w with
  | (Ok p, w1) =>
      match as_todo p with
      | Some updatedTodo =>
          (Ok updatedTodo,
           with_st (fun s => set_todos (replaceById id updatedTodo (todos s)) s) w1)
      | None => (Err tt, showToast "Failed to update task" "error" w1)
      end
  | (Err _, w1) => (Err tt, showToast "Failed to update task" "error" w1)
  end.

(** [showUndoSnackbar(message)]: a pending timer is cancelled and a new
    one started. *)
Definition showUndoSnackbar (message : string) (w : World) : World :=
  notify (UndoSnackbar message) (with_st (set_undoTimeout true) w).

(** [hideUndoSnackbar()]: the timer is cancelled, and a short timer that
    will empty the undo slot is started. *)
Definition hideUndoSnackbar (w : World) : World :=
  notify HideUndoSnackbar
    (with_st (fun s => set_slotClears (S (slotClears s)) (set_undoTimeout false s)) w).

(** [deleteTodo(id)]. *)
Definition deleteTodo (n : Net) (id : ObjectId) (w : World)
  : result unit unit * World :=
  match apiRequest n (DELETE_todo (WellFormed id)) w with
  | (Ok _, w1) =>
      match findById id (todos (st w1)) with
      | Some t =>
          (Ok tt,
           showUndoSnackbar "Task deleted"
             (with_st (fun s => set_todos (removeById id (todos s))
                                  (set_deletedTodo (Some t) s)) w1))
      | None => (Ok tt, w1)
      end
  | (Err _, w1) => (Err tt, showToast "Failed to delete task" "error" w1)
  end.

(** [clearAllTodos()]. *)
Definition clearAllTodos (n : Net) (w : World) : result unit unit * World :=
  match apiRequest n DELETE_todos w with
  | (Ok _, w1) =>
      (Ok tt, showToast "All tasks cleared!" "success" (with_st (set_todos []) w1))
  | (Err _, w1) => (Err tt, showToast "Failed to clear tasks" "error" w1)
  end.

(** The [todoData] that [handleUndo] builds from the undo slot. *)
Definition todoData_of (t : Todo) : Body :=
  mkBody (Some (title t)) (Some (status t)) (Some (priority t))
         (Some (category t))
         (Some (match dueDate t with
                | Some ms => DInstant ms
                | None => DNull
                end)).

(** [handleUndo()]. *)
Definition handleUndo (n : Net) (w : World) : World :=
  match deletedTodo (st w) with
  | None => w
  | Some t =>
      match createTodo n (todoData_of t) w with
      | (Ok _, w1) =>
          showToast "Task restored!" "success"
            (hideUndoSnackbar (with_st (set_deletedTodo None) w1))
      | (Err _, w1) => w1
      end
  end.

(** The timer started by [showUndoSnackbar] fires. *)
Definition undoTimeoutFires (w : World) : World :=
  if undoTimeout (st w) then hideUndoSnackbar w else w.

(** A timer started by [hideUndoSnackbar] fires. *)
Definition slotClearFires (w : World) : World :=
  match slotClears (st w) with
  | O => w
  | S k => with_st (fun s => set_slotClears k (set_deletedTodo None s)) w
  end.

(** ** Filtering, searching, sorting *)

Definition set_view (f q srt : string) (s : State) : State :=
  mkState (todos s) f srt q (deletedTodo s) (undoTimeout s) (slotClears s).

(** [handleFilterChange(filter)]. *)
Definition handleFilterChange (filter : string) (s : State) : State :=
  set_view filter (searchQuery s) (currentSort s) s.

(** [handleSearch(e)]: the query is stored in lower case. *)
Definition handleSearch (value : string) (s : State) : State :=
  set_view (currentFilter s) (Js.toLowerCase value) (currentSort s) s.

(** [handleSort()]. *)
Definition handleSort (value : string) (s : State) : State :=
  set_view (currentFilter s) (searchQuery s) value s.

(** [priorityOrder[p]]; [None] is [undefined]. *)
Definition priorityOrder (p : string) : option Z :=
  if String.eqb p "high" then Some 3
  else if String.eqb p "medium" then Some 2
  else if String.eqb p "low" then Some 1
  else None.

(** The comparison function handed to [sort].  A difference with
    [undefined] is NaN, which [sort] reads as 0. *)
Definition compareTodos (currentSort : string) (a b : Todo) : Z :=
  if String.eqb currentSort "newest" then createdAt b - createdAt a
  else if String.eqb currentSort "oldest" then createdAt a - createdAt b
  else if String.eqb currentSort "priority" then
    match priorityOrder (priority b), priorityOrder (priority a) with
    | Some pb, Some pa => pb - pa
    | _, _ => 0
    end
  else if String.eqb currentSort "dueDate" then
    match dueDate a with
    | None => 1
    | Some da =>
        match dueDate b with
        | None => -1
        | Some db => da - db
        end
    end
  else 0.

Definition status_matches (filter : string) (todo : Todo) : bool :=
  String.eqb (status todo) filter.

Definition search_matches (query : string) (todo : Todo) : bool :=
  Js.includes (Js.toLowerCase (title todo)) query
  || Js.includes (Js.toLowerCase (category todo)) query.

(** [getFilteredTodos()], on the engine [e]. *)
Definition getFilteredTodos (e : Js.engine) (s : State) : list Todo :=
  let filtered := todos s in
  let filtered :=
    if negb (String.eqb (currentFilter s) "all")
    then filter (status_matches (currentFilter s)) filtered
    else filtered in
  let filtered :=
    if Js.truthy (searchQuery s)
    then filter (search_matches (searchQuery s)) filtered
    else filtered in
  Js.sort e (compareTodos (currentSort s)) filtered.

(** The view of the specification: the engine applied to a cache under
    the criteria the handlers have stored. *)
Definition view (e : Js.engine) (cache : list Todo)
    (filterStatus searchText sortKey : string) : list Todo :=
  getFilteredTodos e
    (handleSort sortKey
       (handleSearch searchText
          (handleFilterChange filterStatus
             (mkState cache "all" "newest" "" None false 0)))).

End Client.

(* ================================================================== *)
(** * Vocabulary of the specification                                   *)
(* ================================================================== *)

Import Mongoose Server Client.

(** A title that is missing, empty, or made of white space only. *)
Definition blank_title (t : option string) : bool :=
  match t with
  | None => true
  | Some s => forallb Js.is_white_space (list_ascii_of_string s)
  end.

(** [needle] occurs in [hay] as a substring. *)
Definition substring_of (needle hay : string) : Prop :=
  exists pre post, hay = (pre ++ needle ++ post)%string.

(** [needle] occurs in [hay] when case is ignored. *)
Definition occurs_ignoring_case (needle hay : string) : Prop :=
  substring_of (Js.toLowerCase needle) (Js.toLowerCase hay).


(** A body field holds a non-empty value outside the field's set. *)
Definition truthy_outside (vals : list string) (v : option string) : bool :=
  match v with
  | Some s => Js.truthy s && negb (in_enum vals s)
  | None => false
  end.

(** The schema's constraints on a stored task. *)
Definition schema_ok (t : Todo) : bool :=
  String.eqb (Js.trim (title t)) (title t)
  && Js.truthy (title t)
  && in_enum status_enum (status t)
  && in_enum priority_enum (priority t)
  && in_enum category_enum (category t).

(** Every ObjectId in the collection was drawn before [nextId]. *)
Definition ids_drawn (d : Db) : Prop :=
  Forall (fun t => (_id t < nextId d)%N) (docs d).

Definition has_due (t : Todo) : bool :=
  match dueDate t with Some _ => true | None => false end.

Definition no_due (t : Todo) : bool := negb (has_due t).

(** The instant a task is due, for a task that has one. *)
Definition due_instant (t : Todo) : Z :=
  match dueDate t with Some ms => ms | None => 0 end.

(** Where sorting by due date keeps the undated tasks of [l], in the
    prefix held last element first, when [u] is there already. *)
Definition undated_rev (e : Js.engine) (l u : list Todo) : list Todo :=
  match e with
  | Js.ItemFirst => rev (filter no_due l) ++ u
  | Js.ItemSecond => u ++ filter no_due l
  end.

(** A sorted prefix held last element first: keys do not grow towards
    the tail. *)
Definition descending {A : Type} (key : A -> Z) (rp : list A) : Prop :=
  StronglySorted (fun later earlier => key earlier <= key later) rp.

(** Keys do not shrink towards the tail. *)
Definition ascending {A : Type} (key : A -> Z) (l : list A) : Prop :=
  StronglySorted (fun a b => key a <= key b) l.

(** Keys grow strictly towards the tail. *)
Definition strictly_ascending {A : Type} (key : A -> Z) (l : list A) : Prop :=
  StronglySorted (fun a b => key a < key b) l.

(** Newest first: [createdAt] falls strictly towards the tail. *)
Definition newest_first (l : list Todo) : Prop :=
  StronglySorted (fun a b => createdAt a > createdAt b) l.

(** A body field that is omitted or holds the empty string. *)
Definition takes_default (v : option string) : bool :=
  match v with
  | None => true
  | Some s => negb (Js.truthy s)
  end.

(** How a create request's field [v] shows in the stored field: the
    default [d] when [v] is omitted or empty, and [v]'s own value, which
    is then within [vals], otherwise. *)
Definition stored_as (vals : list string) (d : string) (v : option string)
    (stored : string) : Prop :=
  (takes_default v = true -> stored = d)
  /\ (forall s, v = Some s -> Js.truthy s = true ->
        stored = s /\ in_enum vals s = true).


(** Some enumerated field of the body holds a non-empty value outside
    its set. *)
Definition some_truthy_outside (b : Body) : bool :=
  truthy_outside status_enum (b_status b)
  || truthy_outside priority_enum (b_priority b)
  || truthy_outside category_enum (b_category b).



(** The tasks the specification puts in the view: the status filter is
    'all' or the task's status, and the search text is empty or occurs,
    case ignored, in the title or in the category. *)
Definition in_view (filterStatus searchText : string) (t : Todo) : bool :=
  (String.eqb filterStatus "all" || String.eqb (status t) filterStatus)
  && (negb (Js.truthy searchText)
      || Js.includes (Js.toLowerCase (title t)) (Js.toLowerCase searchText)
      || Js.includes (Js.toLowerCase (category t)) (Js.toLowerCase searchText)).

(** The four mutations of the client. *)
Inductive Mutation : Type :=
| Create (todoData : Body)
| Update (id : ObjectId) (updates : Body)
| Delete (id : ObjectId)
| ClearAll.

(** The request a mutation sends. *)
Definition request_of (m : Mutation) : Request :=
  match m with
  | Create todoData => POST_todos todoData
  | Update id updates => PUT_todo (WellFormed id) updates
  | Delete id => DELETE_todo (WellFormed id)
  | ClearAll => DELETE_todos
  end.

(** Running a mutation: whether it threw, and the world it leaves. *)
Definition run (n : Net) (m : Mutation) (w : World) : bool * World :=
  let threw {A} (r : result unit A) :=
    match r with Ok _ => false | Err _ => true end in
  match m with
  | Create todoData =>
      let (r, w') := createTodo n todoData w in (threw r, w')
  | Update id updates =>
      let (r, w') := updateTodo n id updates w in (threw r, w')
  | Delete id =>
      let (r, w') := deleteTodo n id w in (threw r, w')
  | ClearAll =>
      let (r, w') := clearAllTodos n w in (threw r, w')
  end.

(** The toast each mutation raises when it fails. *)
Definition failure_toast (m : Mutation) : Notice :=
  match m with
  | Create _ => Toast "Failed to add task" "error"
  | Update _ _ => Toast "Failed to update task" "error"
  | Delete _ => Toast "Failed to delete task" "error"
  | ClearAll => Toast "Failed to clear tasks" "error"
  end.

(** [w] is what a successful undo leaves behind. *)
Definition after_successful_undo (w : World) : Prop :=
  exists n0 w0 t,
    deletedTodo (st w0) = Some t
    /\ fst (createTodo n0 (todoData_of t) w0) = Ok tt
    /\ w = handleUndo n0 w0.

(** The task the server creates from the undo slot [t]: a fresh
    ObjectId and creation instant, and the content of [t]. *)
Definition recreated (env : Env) (d : Db) (t : Todo) : Todo :=
  mkTodo (nextId d) (title t) (status t) (priority t) (category t)
         (dueDate t) (now env).

(** Deleting the task with the id of [t] and undoing at once. *)
Definition delete_then_undo (n1 n2 : Net) (t : Todo) (w : World) : World :=
  handleUndo n2 (snd (deleteTodo n1 (_id t) w)).

(** The network and the store both work during a request. *)
Definition request_succeeds (n : Net) : bool := net_up n && db_up (srv n).

(** ** Sample data *)

Definition milk : Todo :=
  mkTodo 1%N "Buy milk" "todo" "medium" "shopping" None 1000.

Definition report : Todo :=
  mkTodo 2%N "Write report" "todo" "high" "work" (Some 5000) 2000.

Definition gym : Todo :=
  mkTodo 3%N "Gym" "progress" "low" "health" None 3000.

(** An update that sets [status] to a value outside its set. *)
Definition bogus_update : Body := mkBody None (Some "done") None None None.

(** An update that sets only [status], to a value of its set. *)
Definition complete_update : Body :=
  mkBody None (Some "completed") None None None.

(** A creation whose [status] is present and is the empty string. *)
Definition empty_status_body : Body :=
  mkBody (Some "Buy milk") (Some "") None None None.

Definition sample_db : Db := mkDb [milk; report; gym] 4%N.

Definition sample_state : State :=
  mkState [gym; report; milk] "all" "newest" "" None false 0.

Definition sample_world : World := mkWorld sample_state sample_db [] [].

Definition online : Net := mkNet true (mkEnv 9000 true).

Definition offline : Net := mkNet false (mkEnv 9000 true).

(* ================================================================== *)
(** * The rest of the task API ([server.js])                            *)
(* ================================================================== *)

From Stdlib Require DecimalString.

(** [Todo.find().sort({ createdAt: -1 })].  The store leaves open in
    which order documents with equal [createdAt] come; the model keeps
    them in insertion order. *)
Fixpoint insert_newest (t : Todo) (l : list Todo) : list Todo :=
  match l with
  | [] => [t]
  | x :: r =>
      if createdAt x <=? createdAt t then t :: l else x :: insert_newest t r
  end.

Definition find_newest_first (l : list Todo) : list Todo :=
  fold_right insert_newest [] l.

(** What [GET /api/todos] answers with: the array, or an error object. *)
Inductive ListPayload : Type :=
| LTodos (todos : list Todo)
| LError (error : string).

(** [app.get('/api/todos', ...)]: the status and the payload. *)
Definition get_todos (env : Env) (d : Db) : Z * ListPayload :=
  if db_up env
  then (200, LTodos (find_newest_first (docs d)))
  else (500, LError "Failed to fetch todos").

(* ================================================================== *)
(** * The create and update handlers on any JSON body                   *)
(* ================================================================== *)

(** A JSON value of a request body, as far as the handlers and the
    schema tell values apart.  Of a number they ask only whether it is
    zero, of an array or object nothing. *)
Inductive Json : Type :=
| JNull
| JBool (b : bool)
| JNumber (nonzero : bool)
| JString (s : string)
| JCompound.

(** [!!v]. *)
Definition json_truthy (v : Json) : bool :=
  match v with
  | JNull => false
  | JBool b => b
  | JNumber nonzero => nonzero
  | JString s => Js.truthy s
  | JCompound => true
  end.

(** A request body with any JSON value in its fields ([None] is
    [undefined]); [dueDate] is kept as the schema's cast sees it. *)
Record JsonBody : Type := mkJsonBody {
  j_title : option Json;
  j_status : option Json;
  j_priority : option Json;
  j_category : option Json;
  j_dueDate : option dateInput
}.

(** The body whose fields are absent or strings. *)
Definition json_of_body (b : Body) : JsonBody :=
  mkJsonBody (option_map JString (b_title b))
             (option_map JString (b_status b))
             (option_map JString (b_priority b))
             (option_map JString (b_category b))
             (b_dueDate b).

(** [value || 'default'] on any JSON value. *)
Definition json_or (v : option Json) (d : string) : Json :=
  match v with
  | Some x => if json_truthy x then x else JString d
  | None => JString d
  end.

(** A value on a [String] path with an [enum], after the cast: null
    stays null, a string stays the string; a number or a boolean is
    cast to its text, which is in none of the three sets, and an array
    or object does not cast, so both end in a validation error. *)
Definition castString (path : string) (v : Json)
  : result error (option string) :=
  match v with
  | JNull => Ok None
  | JString s => Ok (Some s)
  | JBool _ | JNumber _ | JCompound => Err (ValidationError path)
  end.

(** [app.post('/api/todos', ...)] on any JSON body.  A falsy title is
    answered 400; [title.trim()] of a truthy title that is no string
    throws a TypeError, caught as 500 before a document is built; a
    field that does not cast to a string of its set fails [save]. *)
Definition post_todos_json (env : Env) (jb : JsonBody) (d : Db)
  : Response * Db :=
  match j_title jb with
  | None => (fail 400 "Title is required", d)
  | Some ttl =>
      if negb (json_truthy ttl) then (fail 400 "Title is required", d)
      else
        match ttl with
        | JString s =>
            if String.eqb (Js.trim s) "" then (fail 400 "Title is required", d)
            else
              match castString "status" (json_or (j_status jb) "todo"),
                    castString "priority" (json_or (j_priority jb) "medium"),
                    castString "category" (json_or (j_category jb) "general")
              with
              | Ok (Some st), Ok (Some pr), Ok (Some ca) =>
                  let (todo, db1) :=
                    construct env
                      (mkFields (Js.trim s) st pr ca (due_or_null (j_dueDate jb)))
                      d in
                  match save env todo db1 with
                  | (Ok savedTodo, db2) =>
                      (mkResponse 201 (PTodo savedTodo), db2)
                  | (Err _, db2) => (fail 500 "Failed to create todo", db2)
                  end
              | _, _, _ =>
                  (fail 500 "Failed to create todo",
                   mkDb (docs d) (N.succ (nextId d)))
              end
        | _ => (fail 500 "Failed to create todo", d)
        end
  end.

(** What the update handler makes of one enumerated field. *)
Inductive Offered : Type :=
| Absent                 (* undefined: the path is left out of [updates] *)
| Null                   (* null: set, and let through by the validators *)
| Text (s : string)      (* a string: set, and checked against the set *)
| Refused.               (* a number, boolean, array or object: set, and
                            refused by the cast or by the enum validator *)

Definition offered (v : option Json) : Offered :=
  match v with
  | None => Absent
  | Some JNull => Null
  | Some (JString s) => Text s
  | Some _ => Refused
  end.

Definition is_null (o : Offered) : bool :=
  match o with Null => true | _ => false end.

Definition is_refused (o : Offered) : bool :=
  match o with Refused => true | _ => false end.

(** The string an offered value sets, when it sets one. *)
Definition text_of (o : Offered) : option string :=
  match o with Text s => Some s | _ => None end.

(** [updates.title = req.body.title.trim()], for a title that is not
    [undefined]: a TypeError unless the title is a string. *)
Definition title_of_update (v : option Json) : result error (option string) :=
  match v with
  | None => Ok None
  | Some (JString s) => Ok (Some s)
  | Some _ => Err (ValidationError "title")
  end.

(** What the update handler does with a request. *)
Inductive PutResult : Type :=
| PutAnswer (r : Response) (d : Db)
| PutSetsNull (id : ObjectId).
    (* answered 200: an enumerated path of the stored task is now null,
       a value the record [Todo] does not hold *)

(** [app.put('/api/todos/:id', ...)] on any JSON body.  With every
    field absent or a string it is [put_todo].  A null on an enumerated
    path passes the validators as an absent path does, and is stored
    when the update is accepted. *)
Definition put_todo_json (env : Env) (id : IdParam) (jb : JsonBody) (d : Db)
  : PutResult :=
  match id with
  | Malformed _ => PutAnswer (fail 400 "Invalid todo ID") d
  | WellFormed oid =>
      match title_of_update (j_title jb) with
      | Err _ => PutAnswer (fail 500 "Failed to update todo") d
      | Ok ttl =>
          let st := offered (j_status jb) in
          let pr := offered (j_priority jb) in
          let ca := offered (j_category jb) in
          if is_refused st || is_refused pr || is_refused ca
          then PutAnswer (fail 500 "Failed to update todo") d
          else
            let (r, d') :=
              put_todo env (WellFormed oid)
                (mkBody ttl (text_of st) (text_of pr) (text_of ca) (j_dueDate jb))
                d in
            if (is_null st || is_null pr || is_null ca) && ok r
            then PutSetsNull oid
            else PutAnswer r d'
      end
  end.

(* ================================================================== *)
(** * The rest of the client ([app.js])                                 *)
(* ================================================================== *)

(** [fetchTodos()].  The GET request cannot change the collection and
    is not entered in [sent].  [state.isLoading] is written and never
    read; it is left out of [State]. *)
Definition fetchTodos (n : Net) (w : World) : World :=
  let answer : result unit ListPayload :=
    if net_up n then
      let (c, p) := get_todos (srv n) (db w) in
      if (200 <=? c) && (c <=? 299) then Ok p else Err tt
    else Err tt in
  match answer with
  | Ok (LTodos data) => with_st (set_todos data) w
  | Ok (LError _) => with_st (set_todos []) w
  | Err _ => with_st (set_todos []) (showToast "Failed to load tasks" "error" w)
  end.

(** The input elements of the add form. *)
Record Form : Type := mkForm {
  todoInput : string;
  prioritySelect : string;
  categorySelect : string;
  dueDateInput : dateInput
}.

(** [resetForm()]. *)
Definition resetForm : Form := mkForm "" "medium" "general" DEmpty.

(** The [todoData] that [handleAddTodo] builds from the form. *)
Definition todoData_of_form (f : Form) : Body :=
  mkBody (Some (Js.trim (todoInput f)))
         (Some "todo")
         (Some (prioritySelect f))
         (Some (categorySelect f))
         (Some (if date_truthy (dueDateInput f) then dueDateInput f else DNull)).

(** [handleAddTodo()]: the world and the form it leaves. *)
Definition handleAddTodo (n : Net) (f : Form) (w : World) : World * Form :=
  if negb (Js.truthy (Js.trim (todoInput f)))
  then (showToast "Please enter a task title" "error" w, f)
  else
    match createTodo n (todoData_of_form f) w with
    | (Ok _, w1) => (w1, resetForm)
    | (Err _, w1) => (w1, f)
    end.

(** The body [{ status: newStatus }]; an [undefined] status is dropped
    by [JSON.stringify]. *)
Definition status_body (newStatus : option string) : Body :=
  mkBody None newStatus None None None.

(** [handleToggleComplete(id, currentStatus)].  The confetti is an
    animation and leaves no trace in the world. *)
Definition handleToggleComplete (n : Net) (id : ObjectId)
    (currentStatus : string) (w : World) : World :=
  let newStatus :=
    if String.eqb currentStatus "completed" then "todo" else "completed" in
  match updateTodo n id (status_body (Some newStatus)) w with
  | (Ok _, w1) =>
      if String.eqb newStatus "completed"
      then showToast "Task completed!" "success" w1
      else w1
  | (Err _, w1) => w1
  end.

(** [handleStatusChange(id, newStatus)]. *)
Definition handleStatusChange (n : Net) (id : ObjectId)
    (newStatus : option string) (w : World) : World :=
  match updateTodo n id (status_body newStatus) w with
  | (Ok _, w1) =>
      match newStatus with
      | Some s =>
          if String.eqb s "completed"
          then showToast "Task completed!" "success" w1
          else showToast "Status updated!" "success" w1
      | None => showToast "Status updated!" "success" w1
      end
  | (Err _, w1) => w1
  end.

(** [statusCycle[currentStatus]]; [None] is [undefined].  The keys an
    object literal inherits (such as '__proto__') are no status and are
    not told apart from other keys. *)
Definition statusCycle (currentStatus : string) : option string :=
  if String.eqb currentStatus "todo" then Some "progress"
  else if String.eqb currentStatus "progress" then Some "completed"
  else if String.eqb currentStatus "completed" then Some "todo"
  else None.

(** [cycleStatus(id, currentStatus)]. *)
Definition cycleStatus (n : Net) (id : ObjectId) (currentStatus : string)
    (w : World) : World :=
  handleStatusChange n id (statusCycle currentStatus) w.

(** The body [{ title: newTitle }]. *)
Definition title_body (newTitle : string) : Body :=
  mkBody (Some newTitle) None None None None.

(** [saveEdit] of [handleEditTodo(id, currentTitle)], on the text of the
    edit input. *)
Definition saveEdit (n : Net) (id : ObjectId) (value : string) (w : World)
  : World :=
  let newTitle := Js.trim value in
  if negb (Js.truthy newTitle)
  then showToast "Title cannot be empty" "error" w
  else
    match updateTodo n id (title_body newTitle) w with
    | (Ok _, w1) => showToast "Task updated!" "success" w1
    | (Err _, w1) => w1
    end.

(** [handleDeleteTodo(id)]. *)
Definition handleDeleteTodo (n : Net) (id : ObjectId) (w : World) : World :=
  snd (deleteTodo n id w).

(** A number inside a template string. *)
Definition decimal (k : nat) : string :=
  DecimalString.NilZero.string_of_uint (Nat.to_uint k).

(** [handleExport()]: the array written to the backup file, when one is
    written, and the world. *)
Definition handleExport (w : World) : option (list Todo) * World :=
  match todos (st w) with
  | [] => (None, showToast "No tasks to export" "error" w)
  | _ :: _ =>
      (Some (todos (st w)),
       showToast ("Exported " ++ decimal (List.length (todos (st w)))
                  ++ " tasks!")%string "success" w)
  end.

(** An element of an imported array, read as the backup file holds a
    task: the fields [importTodos] looks at. *)
Definition item_of (t : Todo) : Body :=
  mkBody (Some (title t)) (Some (status t)) (Some (priority t))
         (Some (category t))
         (Some (match dueDate t with
                | Some ms => DInstant ms
                | None => DNull
                end)).

(** The check of [handleImport]: every element has a non-empty string
    as its title. *)
Definition isValidFormat (importedTodos : list Body) : bool :=
  forallb (fun todo =>
             match b_title todo with
             | Some s => Js.truthy s
             | None => false
             end) importedTodos.

(** The [todoData] that [importTodos] builds from one element. *)
Definition todoData_of_item (todo : Body) : Body :=
  mkBody (b_title todo)
         (Some (Js.or_default (b_status todo) "todo"))
         (Some (Js.or_default (b_priority todo) "medium"))
         (Some (Js.or_default (b_category todo) "general"))
         (Some (due_or_null (b_dueDate todo))).

(** The loop of [importTodos]: the k-th request meets the network
    [net_at k]; the counters and the world are threaded through. *)
Fixpoint importLoop (net_at : nat -> Net) (k : nat) (importedTodos : list Body)
    (successCount errorCount : nat) (w : World) : nat * nat * World :=
  match importedTodos with
  | [] => (successCount, errorCount, w)
  | todo :: rest =>
      match createTodo (net_at k) (todoData_of_item todo) w with
      | (Ok _, w1) =>
          importLoop net_at (S k) rest (S successCount) errorCount w1
      | (Err _, w1) =>
          importLoop net_at (S k) rest successCount (S errorCount) w1
      end
  end.

(** [importTodos(importedTodos)]. *)
Definition importTodos (net_at : nat -> Net) (importedTodos : list Body)
    (w : World) : World :=
  let '(successCount, errorCount, w1) :=
    importLoop net_at 0 importedTodos 0 0 w in
  let w2 :=
    if (0 <? successCount)%nat
    then showToast ("Imported " ++ decimal successCount ++ " tasks!")%string
                   "success" w1
    else w1 in
  if (0 <? errorCount)%nat
  then showToast ("Failed to import " ++ decimal errorCount ++ " tasks")%string
                 "error" w2
  else w2.

(** What [renderTodos()] puts in the list. *)
Inductive Rendered : Type :=
| EmptyState (message : string)
| Items (filtered : list Todo).

(** [renderTodos()]. *)
Definition renderTodos (e : Js.engine) (s : State) : Rendered :=
  match getFilteredTodos e s with
  | [] =>
      EmptyState
        (if Js.truthy (searchQuery s)
         then "No tasks found matching your search"
         else if String.eqb (currentFilter s) "all"
              then "No tasks yet. Add one to get started!"
              else ("No " ++ currentFilter s ++ " tasks")%string)
  | filtered => Items filtered
  end.

(** The four counters of [updateStats()]: total, to do, in progress,
    completed. *)
Record Stats : Type := mkStats {
  total : nat;
  todoCount : nat;
  progressCount : nat;
  completedCount : nat
}.

Definition count_status (s : string) (l : list Todo) : nat :=
  List.length (filter (fun t => String.eqb (status t) s) l).

Definition updateStats (s : State) : Stats :=
  mkStats (List.length (todos s))
          (count_status "todo" (todos s))
          (count_status "progress" (todos s))
          (count_status "completed" (todos s)).

(** ** Further vocabulary *)

(** The content of a task: what undo and import carry over. *)
Definition content (t : Todo) : string * string * string * string * option Z :=
  (title t, status t, priority t, category t, dueDate t).

(** The rank of a priority in the priority order, 0 when it has none. *)
Definition priority_rank (t : Todo) : Z :=
  match priorityOrder (priority t) with Some r => r | None => 0 end.

(** Newest first, ties allowed. *)
Definition not_older_first (l : list Todo) : Prop :=
  StronglySorted (fun a b => createdAt a >= createdAt b) l.

(** Every request of an import gets through and is served. *)
Definition all_succeed (net_at : nat -> Net) : Prop :=
  forall k, request_succeeds (net_at k) = true.

(** The values the selects of the add form offer. *)
Definition form_ok (f : Form) : bool :=
  in_enum priority_enum (prioritySelect f)
  && in_enum category_enum (categorySelect f)
  && match dueDateInput f with DGarbage => false | _ => true end.

(** The due date a form value denotes. *)
Definition due_of_form (d : dateInput) : option Z :=
  match d with DInstant ms => Some ms | _ => None end.

(** The collection is well formed: its ObjectIds were drawn from the
    id source and are pairwise distinct. *)
Definition store_ok (d : Db) : Prop :=
  ids_drawn d /\ NoDup (map _id (docs d)).

(** Every stored task meets the schema. *)
Definition all_schema_ok (d : Db) : Prop :=
  Forall (fun t => schema_ok t = true) (docs d).

(** The state the handlers leave when they have stored the criteria
    of a view over [cache]. *)
Definition view_state (cache : list Todo)
    (filterStatus searchText sortKey : string) : State :=
  handleSort sortKey
    (handleSearch searchText
       (handleFilterChange filterStatus
          (mkState cache "all" "newest" "" None false 0))).










(** The world after [milk] was deleted and the delete undone: the
    timer that empties the undo slot is pending. *)
Definition world_after_undo : World :=
  delete_then_undo online online milk sample_world.

(** Then [gym] is deleted, and the pending timer fires while the
    snackbar of that delete is up. *)
Definition world_with_lost_slot : World :=
  slotClearFires (handleDeleteTodo online (_id gym) world_after_undo).

(** ** Further sample data *)

Definition sample_form : Form := mkForm "  Call mum " "high" "personal" DEmpty.

Definition backup : list Body := [item_of milk; item_of report].

(* ================================================================== *)
(** * Facts about the JavaScript primitives                             *)
(* ================================================================== *)

Lemma drop_white_blank (l : list ascii) :
  forallb Js.is_white_space l = true -> Js.drop_white l = [].
Proof.
  induction l as [|c r IH]; simpl; [reflexivity|].
  intros H. apply andb_true_iff in H as [Hc Hr].
  rewrite Hc. auto.
Qed.

Lemma trim_blank (s : string) :
  forallb Js.is_white_space (list_ascii_of_string s) = true -> Js.trim s = "".
Proof.
  intros H. unfold Js.trim. rewrite (drop_white_blank _ H). reflexivity.
Qed.

Lemma truthy_false (s : string) : Js.truthy s = false <-> s = "".
Proof. destruct s; simpl; split; congruence. Qed.

Lemma truthy_toLowerCase (s : string) :
  Js.truthy (Js.toLowerCase s) = Js.truthy s.
Proof. destruct s; reflexivity. Qed.

Lemma prefix_spec (n h : string) :
  String.prefix n h = true <-> exists post, h = (n ++ post)%string.
Proof.
  revert h. induction n as [|c n IH]; intros h.
  - split; [intros _; exists h; reflexivity|]. destruct h; reflexivity.
  - destruct h as [|d h]; simpl.
    + split; [discriminate|]. intros [post H]. discriminate.
    + destruct (ascii_dec c d) as [->|Hcd].
      * rewrite IH. split; intros [post H]; exists post.
        -- now rewrite H.
        -- now inversion H.
      * split; [discriminate|]. intros [post H]. inversion H. congruence.
Qed.

(** [includes] is the substring test. *)
Lemma includes_spec (hay needle : string) :
  Js.includes hay needle = true <-> substring_of needle hay.
Proof.
  unfold substring_of. induction hay as [|c hay IH].
  - change (Js.includes "" needle) with (String.prefix needle "" || false).
    rewrite orb_false_r, prefix_spec. split.
    + intros [post H]. exists "", post. exact H.
    + intros [pre [post H]]. destruct pre; simpl in H.
      * now exists post.
      * discriminate.
  - change (Js.includes (String c hay) needle)
      with (String.prefix needle (String c hay) || Js.includes hay needle).
    rewrite orb_true_iff, prefix_spec, IH. split.
    + intros [[post H]|[pre [post H]]].
      * exists "", post. exact H.
      * exists (String c pre), post. simpl. now rewrite H.
    + intros [pre [post H]]. destruct pre as [|p pre]; simpl in H.
      * left. now exists post.
      * right. inversion H. now exists pre, post.
Qed.

(** ** [sort] *)

Section SortFacts.
Context {A : Type}.
Variable e : Js.engine.
Variable comparefn : A -> A -> Z.

Local Abbreviation ins := (Js.insert_item e comparefn).

Lemma insert_item_perm (x : A) (rp : list A) :
  Permutation (ins x rp) (x :: rp).
Proof.
  induction rp as [|y rp IH]; simpl; [reflexivity|].
  destruct (Js.moves_left e comparefn x y); [|reflexivity].
  rewrite IH. apply perm_swap.
Qed.

Lemma sort_fold_perm (l acc : list A) :
  Permutation (fold_left (fun a x => ins x a) l acc) (l ++ acc).
Proof.
  revert acc. induction l as [|x l IH]; intros acc; simpl; [reflexivity|].
  rewrite IH, insert_item_perm. symmetry. apply Permutation_middle.
Qed.

(** [sort] rearranges, it neither drops nor invents an element. *)
Lemma sort_perm (l : list A) : Permutation (Js.sort e comparefn l) l.
Proof.
  unfold Js.sort, Js.sort_rev. rewrite <- Permutation_rev.
  rewrite sort_fold_perm. now rewrite app_nil_r.
Qed.

Lemma insert_item_Forall (P : A -> Prop) (x : A) (rp : list A) :
  P x -> Forall P rp -> Forall P (ins x rp).
Proof.
  intros Hx H. eapply Permutation_Forall.
  - symmetry. apply insert_item_perm.
  - now constructor.
Qed.

(** An element that moves left of all of [u] is inserted behind it. *)
Lemma insert_item_passes (x : A) (u d : list A) :
  Forall (fun y => Js.moves_left e comparefn x y = true) u ->
  ins x (u ++ d) = u ++ ins x d.
Proof.
  induction 1 as [|y u Hy _ IH]; simpl; [reflexivity|].
  now rewrite Hy, IH.
Qed.

(** ** When the comparison orders by a key

    On elements that satisfy [P], let an element move left exactly
    when its key is smaller. *)
Variable P : A -> Prop.
Variable key : A -> Z.
Hypothesis by_key : forall x y, P x -> P y ->
  Js.moves_left e comparefn x y = (key x <? key y).

Lemma insert_item_descending (x : A) (rp : list A) :
  P x -> Forall P rp -> descending key rp -> descending key (ins x rp).
Proof.
  intros Hx HP Hs. induction rp as [|y rp IH]; simpl.
  - repeat constructor.
  - inversion HP as [|? ? Py HPr]; subst.
    apply StronglySorted_inv in Hs as [Hs Hy].
    rewrite (by_key x y Hx Py). destruct (Z.ltb_spec (key x) (key y)) as [Hlt|Hge].
    + constructor; [now apply IH|].
      eapply Permutation_Forall; [symmetry; apply insert_item_perm|].
      constructor; [lia|exact Hy].
    + constructor; [now constructor|].
      constructor; [exact Hge|].
      eapply Forall_impl; [|exact Hy]. simpl. intros; lia.
Qed.

Lemma sort_fold_descending (l acc : list A) :
  Forall P l -> Forall P acc -> descending key acc ->
  descending key (fold_left (fun a x => ins x a) l acc).
Proof.
  revert acc. induction l as [|x l IH]; intros acc Hl Hacc Hs; simpl; [exact Hs|].
  inversion Hl; subst. apply IH; auto.
  - now apply insert_item_Forall.
  - now apply insert_item_descending.
Qed.
End SortFacts.

Lemma StronglySorted_app {A : Type} (R : A -> A -> Prop) (l1 l2 : list A) :
  StronglySorted R l1 -> StronglySorted R l2 ->
  (forall x y, In x l1 -> In y l2 -> R x y) ->
  StronglySorted R (l1 ++ l2).
Proof.
  induction l1 as [|a l1 IH]; simpl; intros H1 H2 H; [exact H2|].
  apply StronglySorted_inv in H1 as [H1 Ha]. constructor.
  - apply IH; auto.
  - apply Forall_app. split; [exact Ha|].
    apply Forall_forall. intros y Hy. apply H; auto.
Qed.

Lemma descending_rev {A : Type} (key : A -> Z) (rp : list A) :
  descending key rp -> ascending key (rev rp).
Proof.
  unfold descending, ascending. induction 1 as [|a l Hs IH Ha]; simpl.
  - constructor.
  - apply StronglySorted_app; [exact IH|repeat constructor|].
    intros x y Hx [<-|[]]. apply in_rev in Hx.
    rewrite Forall_forall in Ha. now apply Ha.
Qed.

(** On elements whose comparison orders by a key, [sort] sorts by it. *)
Lemma sort_ascending {A : Type} (e : Js.engine) (comparefn : A -> A -> Z)
    (P : A -> Prop) (key : A -> Z) (l : list A) :
  (forall x y, P x -> P y ->
     Js.moves_left e comparefn x y = (key x <? key y)) ->
  Forall P l -> ascending key (Js.sort e comparefn l).
Proof.
  intros Hk Hl. unfold Js.sort, Js.sort_rev. apply descending_rev.
  eapply sort_fold_descending; eauto. constructor.
Qed.

Lemma ascending_strict {A : Type} (key : A -> Z) (l : list A) :
  ascending key l -> NoDup (map key l) -> strictly_ascending key l.
Proof.
  unfold ascending, strictly_ascending.
  induction 1 as [|a l Hs IH Ha]; simpl; intros Hnd; [constructor|].
  apply NoDup_cons_iff in Hnd as [Hnotin Hnd]. constructor; [auto|].
  rewrite Forall_forall in *. intros b Hb.
  assert (key a <> key b).
  { intros Heq. apply Hnotin. rewrite Heq. now apply in_map. }
  specialize (Ha b Hb). lia.
Qed.

(** A strictly sorted arrangement of given elements is unique. *)
Lemma strictly_ascending_unique {A : Type} (key : A -> Z) (l1 l2 : list A) :
  strictly_ascending key l1 -> strictly_ascending key l2 ->
  Permutation l1 l2 -> l1 = l2.
Proof.
  unfold strictly_ascending. revert l2.
  induction l1 as [|a l1 IH]; intros l2 H1 H2 Hp.
  - now apply Permutation_nil in Hp.
  - destruct l2 as [|b l2].
    + symmetry in Hp. now apply Permutation_nil in Hp.
    + apply StronglySorted_inv in H1 as [H1 Ha].
      apply StronglySorted_inv in H2 as [H2 Hb].
      rewrite Forall_forall in Ha, Hb.
      assert (a = b) as ->.
      { assert (Hin : In a (b :: l2))
          by (eapply Permutation_in; [exact Hp|now left]).
        destruct Hin as [Hab|Hin]; [now symmetry|].
        assert (Hin' : In b (a :: l1))
          by (eapply Permutation_in; [symmetry; exact Hp|now left]).
        destruct Hin' as [Hba|Hin']; [exact Hba|].
        specialize (Ha _ Hin'). specialize (Hb _ Hin). lia. }
      f_equal. apply IH; auto. now apply Permutation_cons_inv in Hp.
Qed.

(** ** The comparison of the client *)

Lemma newest_by_key (e : Js.engine) (x y : Todo) :
  Js.moves_left e (compareTodos "newest") x y
  = ((- createdAt x) <? (- createdAt y)).
Proof.
  destruct e; unfold Js.moves_left, compareTodos; simpl;
    destruct (Z.ltb_spec (- createdAt x) (- createdAt y));
    [apply Z.ltb_lt|apply Z.ltb_ge|apply Z.ltb_lt|apply Z.ltb_ge]; lia.
Qed.

Lemma view_newest_all (e : Js.engine) (cache : list Todo) :
  view e cache "all" "" "newest" = Js.sort e (compareTodos "newest") cache.
Proof. reflexivity. Qed.

Lemma newest_first_of_strict (l : list Todo) :
  strictly_ascending (fun t => - createdAt t) l -> newest_first l.
Proof.
  unfold strictly_ascending, newest_first. induction 1 as [|a l Hs IH Ha].
  - constructor.
  - constructor; [exact IH|]. eapply Forall_impl; [|exact Ha].
    simpl. intros; lia.
Qed.

Lemma sort_newest_strict (e : Js.engine) (cache : list Todo) :
  NoDup (map createdAt cache) ->
  strictly_ascending (fun t => - createdAt t)
    (Js.sort e (compareTodos "newest") cache).
Proof.
  intros Hnd. apply ascending_strict.
  - apply sort_ascending with (P := fun _ => True).
    + intros x y _ _. apply newest_by_key.
    + apply Forall_forall. auto.
  - eapply Permutation_NoDup.
    + apply Permutation_map. symmetry. apply sort_perm.
    + rewrite <- (map_map createdAt Z.opp).
      apply Finite.Injective_map_NoDup; [|exact Hnd].
      intros a b Hab. lia.
Qed.

(** C6: with pairwise distinct [createdAt], the view under filter 'all',
    empty search and sort key 'newest' holds all cached tasks, newest
    first, and is the same list when the cache is reversed. *)
Theorem C6_newest_view_order_independent (e : Js.engine) (cache : list Todo) :
  NoDup (map createdAt cache) ->
  Permutation (view e cache "all" "" "newest") cache
  /\ newest_first (view e cache "all" "" "newest")
  /\ view e (rev cache) "all" "" "newest" = view e cache "all" "" "newest".
Proof.
  intros Hnd. rewrite !view_newest_all. split; [apply sort_perm|]. split.
  - apply newest_first_of_strict. now apply sort_newest_strict.
  - apply strictly_ascending_unique with (key := fun t => - createdAt t).
    + apply sort_newest_strict. rewrite map_rev. now apply NoDup_rev.
    + now apply sort_newest_strict.
    + rewrite !sort_perm. symmetry. apply Permutation_rev.
Qed.

Lemma C6_newest_view_order_independent_witness :
  Permutation (view Js.ItemSecond [milk; gym; report] "all" "" "newest")
              [milk; gym; report]
  /\ newest_first (view Js.ItemSecond [milk; gym; report] "all" "" "newest")
  /\ view Js.ItemSecond (rev [milk; gym; report]) "all" "" "newest"
     = view Js.ItemSecond [milk; gym; report] "all" "" "newest".
Proof.
  apply (C6_newest_view_order_independent Js.ItemSecond [milk; gym; report]).
  simpl. repeat constructor; simpl; intuition lia.
Defined.

(** ** Sorting by due date *)

Lemma due_undated_item_first (x y : Todo) :
  no_due x = true ->
  Js.moves_left Js.ItemFirst (compareTodos "dueDate") x y = false.
Proof.
  unfold no_due, has_due, Js.moves_left, compareTodos. simpl.
  destruct (dueDate x); [discriminate|reflexivity].
Qed.

Lemma due_undated_item_second (x y : Todo) :
  no_due x = true ->
  Js.moves_left Js.ItemSecond (compareTodos "dueDate") x y = no_due y.
Proof.
  unfold no_due, has_due, Js.moves_left, compareTodos. simpl.
  destruct (dueDate x); [discriminate|]. destruct (dueDate y); reflexivity.
Qed.

Lemma due_dated_passes_undated (e : Js.engine) (x y : Todo) :
  has_due x = true -> no_due y = true ->
  Js.moves_left e (compareTodos "dueDate") x y = true.
Proof.
  unfold no_due, has_due, Js.moves_left, compareTodos. simpl.
  destruct (dueDate x); [|discriminate].
  destruct (dueDate y); [discriminate|]. destruct e; reflexivity.
Qed.

Lemma due_by_key (e : Js.engine) (x y : Todo) :
  has_due x = true -> has_due y = true ->
  Js.moves_left e (compareTodos "dueDate") x y
  = (due_instant x <? due_instant y).
Proof.
  unfold has_due, due_instant, Js.moves_left, compareTodos. simpl.
  destruct (dueDate x) as [dx|]; [|discriminate].
  destruct (dueDate y) as [dy|]; [|discriminate]. intros _ _.
  destruct e; destruct (Z.ltb_spec dx dy);
    [apply Z.ltb_lt|apply Z.ltb_ge|apply Z.ltb_lt|apply Z.ltb_ge]; lia.
Qed.

Lemma insert_undated (e : Js.engine) (x : Todo) (u d : list Todo) :
  no_due x = true ->
  Forall (fun t => no_due t = true) u -> Forall (fun t => has_due t = true) d ->
  Js.insert_item e (compareTodos "dueDate") x (u ++ d)
  = match e with
    | Js.ItemFirst => (x :: u) ++ d
    | Js.ItemSecond => (u ++ [x]) ++ d
    end.
Proof.
  intros Hx Hu Hd. destruct e.
  - change ((x :: u) ++ d) with (x :: (u ++ d)).
    generalize (u ++ d). intros [|y rp]; cbn [Js.insert_item]; [reflexivity|].
    now rewrite due_undated_item_first.
  - rewrite insert_item_passes.
    + rewrite <- app_assoc. f_equal.
      destruct d as [|y d]; cbn [Js.insert_item app]; [reflexivity|].
      rewrite due_undated_item_second by exact Hx.
      inversion Hd; subst. unfold no_due.
      now replace (has_due y) with true.
    + eapply Forall_impl; [|exact Hu]. cbv beta. intros y Hy.
      now rewrite due_undated_item_second.
Qed.

Lemma insert_dated (e : Js.engine) (x : Todo) (u d : list Todo) :
  has_due x = true -> Forall (fun t => no_due t = true) u ->
  Js.insert_item e (compareTodos "dueDate") x (u ++ d)
  = u ++ Js.insert_item e (compareTodos "dueDate") x d.
Proof.
  intros Hx Hu. apply insert_item_passes.
  eapply Forall_impl; [|exact Hu]. cbv beta. intros y Hy.
  now apply due_dated_passes_undated.
Qed.

Lemma due_fold (e : Js.engine) (l u d : list Todo) :
  Forall (fun t => no_due t = true) u -> Forall (fun t => has_due t = true) d ->
  fold_left (fun a x => Js.insert_item e (compareTodos "dueDate") x a) l (u ++ d)
  = undated_rev e l u
    ++ fold_left (fun a x => Js.insert_item e (compareTodos "dueDate") x a)
         (filter has_due l) d.
Proof.
  revert u d. induction l as [|x l IH]; intros u d Hu Hd.
  - destruct e; simpl; now rewrite ?app_nil_r.
  - cbn [fold_left filter]. destruct (has_due x) eqn:Hx.
    + cbn [fold_left]. rewrite insert_dated by assumption.
      rewrite IH; [|exact Hu|now apply insert_item_Forall].
      f_equal. assert (Hnx : no_due x = false) by (unfold no_due; now rewrite Hx).
      unfold undated_rev. cbn [filter]. now rewrite Hnx.
    + assert (Hnx : no_due x = true) by (unfold no_due; now rewrite Hx).
      rewrite insert_undated by assumption.
      destruct e; rewrite IH; try assumption.
      * unfold undated_rev. cbn [filter]. rewrite Hnx. cbn [rev].
        f_equal. now rewrite <- app_assoc.
      * now constructor.
      * unfold undated_rev. cbn [filter]. rewrite Hnx.
        f_equal. now rewrite <- app_assoc.
      * apply Forall_app. split; [exact Hu|now repeat constructor].
Qed.

(** The result of sorting by due date: the dated tasks, sorted, then
    the undated ones, in received order on an engine that hands the
    item first and in reversed order on one that hands it second. *)
Lemma due_sort_shape (e : Js.engine) (l : list Todo) :
  Js.sort e (compareTodos "dueDate") l
  = Js.sort e (compareTodos "dueDate") (filter has_due l)
    ++ match e with
       | Js.ItemFirst => filter no_due l
       | Js.ItemSecond => rev (filter no_due l)
       end.
Proof.
  unfold Js.sort, Js.sort_rev.
  pose proof (due_fold e l [] [] (Forall_nil _) (Forall_nil _)) as Hl.
  cbn [app] in Hl. rewrite Hl, rev_app_distr. f_equal.
  unfold undated_rev. destruct e.
  - now rewrite app_nil_r, rev_involutive.
  - reflexivity.
Qed.

(** The dated tasks come out in ascending order of their due instant. *)
Lemma due_sort_dated_ascending (e : Js.engine) (l : list Todo) :
  ascending due_instant (Js.sort e (compareTodos "dueDate") (filter has_due l)).
Proof.
  apply sort_ascending with (P := fun t => has_due t = true).
  - intros x y Hx Hy. now apply due_by_key.
  - apply Forall_forall. intros x Hx. now apply filter_In in Hx.
Qed.

Lemma view_due_all (e : Js.engine) (cache : list Todo) :
  view e cache "all" "" "dueDate" = Js.sort e (compareTodos "dueDate") cache.
Proof. reflexivity. Qed.

(** Two tasks without a due date compare as 1 whichever comes first:
    the comparison never reports them as a tie. *)
Lemma due_undated_pair (a b : Todo) :
  no_due a = true -> no_due b = true ->
  compareTodos "dueDate" a b = 1 /\ compareTodos "dueDate" b a = 1.
Proof.
  unfold no_due, has_due, compareTodos. simpl.
  destruct (dueDate a), (dueDate b); try discriminate. now split.
Qed.

(** C1, at the cache [milk; gym] of two tasks without a due date: the
    comparison function answers 1 for the pair in either order, so the
    two are not ties; the view keeps their received order on an engine
    that hands the later element first, and reverses it on an engine
    that hands the earlier element first.  Tasks with a due date still
    come first, in ascending order ([due_sort_shape],
    [due_sort_dated_ascending]). *)
Theorem C1_undated_pair_not_a_tie :
  compareTodos "dueDate" milk gym = 1
  /\ compareTodos "dueDate" gym milk = 1
  /\ view Js.ItemFirst [milk; gym] "all" "" "dueDate" = [milk; gym]
  /\ view Js.ItemSecond [milk; gym] "all" "" "dueDate" = [gym; milk].
Proof. repeat split. Qed.

(* ================================================================== *)
(** * The task API                                                      *)
(* ================================================================== *)

Lemma drop_white_nil_blank (l : list ascii) :
  Js.drop_white l = [] -> forallb Js.is_white_space l = true.
Proof.
  induction l as [|c r IH]; simpl; [reflexivity|].
  destruct (Js.is_white_space c); [exact IH|discriminate].
Qed.

Lemma drop_white_head (l : list ascii) (c : ascii) (r : list ascii) :
  Js.drop_white l = c :: r -> Js.is_white_space c = false.
Proof.
  induction l as [|d l IH]; simpl; [discriminate|].
  destruct (Js.is_white_space d) eqn:Hd; [exact IH|].
  intros H. inversion H; subst. exact Hd.
Qed.

(** [trim] leaves nothing exactly when there was only white space. *)
Lemma trim_empty_iff (s : string) :
  Js.trim s = "" <-> forallb Js.is_white_space (list_ascii_of_string s) = true.
Proof.
  split; [|apply trim_blank]. unfold Js.trim. intros H.
  apply drop_white_nil_blank.
  destruct (Js.drop_white (list_ascii_of_string s)) as [|c r] eqn:E;
    [reflexivity|].
  exfalso.
  assert (Hrev : rev (Js.drop_white (rev (c :: r))) = []).
  { destruct (rev (Js.drop_white (rev (c :: r)))); [reflexivity|discriminate]. }
  apply (f_equal (@rev ascii)) in Hrev. rewrite rev_involutive in Hrev.
  simpl in Hrev. apply drop_white_nil_blank in Hrev.
  rewrite forallb_app in Hrev. apply andb_true_iff in Hrev as [_ Hc].
  simpl in Hc. rewrite (drop_white_head _ _ _ E) in Hc. discriminate.
Qed.

(** C8: a create request whose title is missing, empty or white space
    only is answered 400 'Title is required', and the collection is as
    it was. *)
Theorem C8_blank_title_is_rejected (env : Env) (b : Body) (d : Db) :
  blank_title (b_title b) = true ->
  post_todos env b d = (fail 400 "Title is required", d)
  /\ is_4xx (fst (post_todos env b d)) = true.
Proof.
  intros H. unfold post_todos. destruct (b_title b) as [ttl|]; simpl in H.
  - rewrite (trim_blank _ H). simpl. rewrite orb_true_r. now split.
  - now split.
Qed.

Lemma C8_blank_title_is_rejected_witness :
  post_todos (mkEnv 9000 true) (mkBody (Some "   ") None None None None) sample_db
  = (fail 400 "Title is required", sample_db)
  /\ is_4xx (fst (post_todos (mkEnv 9000 true)
                    (mkBody (Some "   ") None None None None) sample_db)) = true.
Proof.
  apply (C8_blank_title_is_rejected (mkEnv 9000 true)
           (mkBody (Some "   ") None None None None) sample_db).
  reflexivity.
Defined.




(** ** Creating *)

Lemma or_default_truthy (s d : string) :
  Js.truthy s = true -> Js.or_default (Some s) d = s.
Proof. unfold Js.or_default. now intros ->. Qed.

Lemma or_default_takes_default (v : option string) (d : string) :
  takes_default v = true -> Js.or_default v d = d.
Proof.
  destruct v as [s|]; simpl; [|reflexivity].
  destruct (Js.truthy s); [discriminate|reflexivity].
Qed.

(** What a successful validation says about the document. *)
Lemma validate_ok_inv (t0 t : Todo) (du : dateInput) :
  validate (t0, du) = Ok t ->
  _id t = _id t0 /\ title t = title t0 /\ status t = status t0
  /\ priority t = priority t0 /\ category t = category t0
  /\ createdAt t = createdAt t0
  /\ castDate du = Some (dueDate t)
  /\ Js.truthy (title t0) = true
  /\ in_enum status_enum (status t0) = true
  /\ in_enum priority_enum (priority t0) = true
  /\ in_enum category_enum (category t0) = true.
Proof.
  unfold validate, bind, check_required, check_enum, check_date. cbn [fst snd].
  destruct (Js.truthy (title t0)); [|discriminate].
  destruct (in_enum status_enum (status t0)); [|discriminate].
  destruct (in_enum priority_enum (priority t0)); [|discriminate].
  destruct (in_enum category_enum (category t0)); [|discriminate].
  destruct (castDate du); [|discriminate].
  intros H. inversion H; subst. simpl. now repeat split.
Qed.

(** Validation fails on a document one of whose enumerated paths is
    outside its set. *)
Lemma validate_outside (t0 : Todo) (du : dateInput) :
  in_enum status_enum (status t0) && in_enum priority_enum (priority t0)
  && in_enum category_enum (category t0) = false ->
  exists err, validate (t0, du) = Err err.
Proof.
  unfold validate, bind, check_required, check_enum. cbn [fst snd].
  destruct (Js.truthy (title t0)); [|eauto].
  destruct (in_enum status_enum (status t0)); [|eauto].
  destruct (in_enum priority_enum (priority t0)); [|eauto].
  destruct (in_enum category_enum (category t0)); [|eauto].
  discriminate.
Qed.

Lemma truthy_outside_or_default (vals : list string) (v : option string)
    (d : string) :
  truthy_outside vals v = true -> in_enum vals (Js.or_default v d) = false.
Proof.
  destruct v as [s|]; simpl; [|discriminate].
  destruct (Js.truthy s); simpl; [|discriminate].
  now destruct (in_enum vals s).
Qed.

Lemma stored_as_or_default (vals : list string) (d : string)
    (v : option string) :
  in_enum vals (Js.or_default v d) = true ->
  stored_as vals d v (Js.or_default v d).
Proof.
  intros H. split.
  - apply or_default_takes_default.
  - intros s -> Hs. rewrite (or_default_truthy _ _ Hs) in *. now split.
Qed.

(** The guard of the create handler lets exactly the non-blank titles
    through. *)
Lemma title_guard (ttl : string) :
  blank_title (Some ttl) = false ->
  negb (Js.truthy ttl) || String.eqb (Js.trim ttl) "" = false.
Proof.
  simpl. intros H. apply orb_false_iff. split.
  - destruct ttl; [discriminate H|reflexivity].
  - apply String.eqb_neq. intros Ht. apply trim_empty_iff in Ht. congruence.
Qed.

(** On a body whose fields are absent or strings and whose title is
    not blank, a non-empty status, priority or category outside its set
    makes the create request fail with 500 'Failed to create todo' and
    nothing is stored; and in a task that is created each of the three
    fields is the default when the body omits it or holds the empty
    string, and the value of the body, which is then within the set,
    otherwise. *)
Lemma post_todos_rejects_or_defaults (env : Env) (b : Body) (d : Db) :
  blank_title (b_title b) = false ->
  (some_truthy_outside b = true ->
     fst (post_todos env b d) = fail 500 "Failed to create todo"
     /\ docs (snd (post_todos env b d)) = docs d)
  /\ (forall t d', post_todos env b d = (mkResponse 201 (PTodo t), d') ->
        stored_as status_enum "todo" (b_status b) (status t)
        /\ stored_as priority_enum "medium" (b_priority b) (priority t)
        /\ stored_as category_enum "general" (b_category b) (category t)).
Proof.
  intros Hb. unfold post_todos.
  destruct (b_title b) as [ttl|] eqn:Ht; [|discriminate Hb].
  rewrite (title_guard ttl Hb). unfold construct, save.
  match goal with
  | |- context [validate (?t0, ?du)] =>
      set (doc := t0); set (due := du)
  end.
  split.
  - intros Hout.
    destruct (validate_outside doc due) as [err Herr].
    { unfold doc; cbn [status priority category f_status f_priority f_category].
      unfold some_truthy_outside in Hout.
      apply orb_true_iff in Hout as [Hout|Hc].
      - apply orb_true_iff in Hout as [Hs|Hp].
        + now rewrite (truthy_outside_or_default _ _ _ Hs).
        + rewrite (truthy_outside_or_default _ _ _ Hp).
          now rewrite andb_false_r.
      - rewrite (truthy_outside_or_default _ _ _ Hc).
        now rewrite andb_false_r. }
    rewrite Herr. now split.
  - intros t d'. destruct (validate (doc, due)) as [t1|err] eqn:Hv.
    + destruct (db_up env); [|discriminate]. intros H. inversion H; subst t1.
      apply validate_ok_inv in Hv
        as (_ & _ & Hs & Hp & Hc & _ & _ & _ & Es & Ep & Ec).
      unfold doc in *;
        cbn [status priority category f_status f_priority f_category] in *.
      rewrite Hs, Hp, Hc.
      split; [|split]; now apply stored_as_or_default.
    + discriminate.
Qed.


(** ** Updating *)

Lemma findById_id (id : ObjectId) (l : list Todo) (t : Todo) :
  findById id l = Some t -> _id t = id.
Proof.
  induction l as [|x l IH]; simpl; [discriminate|].
  destruct (N.eqb_spec (_id x) id) as [E|_]; [|exact IH].
  intros H. now inversion H; subst.
Qed.

Lemma findById_In (id : ObjectId) (l : list Todo) (t : Todo) :
  findById id l = Some t -> In t l.
Proof.
  induction l as [|x l IH]; simpl; [discriminate|].
  destruct (N.eqb (_id x) id); [|auto].
  intros H. inversion H. now left.
Qed.

Lemma findById_replace_same (id : ObjectId) (l : list Todo) (t t' : Todo) :
  findById id l = Some t -> _id t' = id ->
  findById id (replaceById id t' l) = Some t'.
Proof.
  intros Hf Hid. induction l as [|x l IH]; simpl in *; [discriminate|].
  destruct (N.eqb (_id x) id) eqn:E; simpl.
  - rewrite Hid, N.eqb_refl. reflexivity.
  - rewrite E. auto.
Qed.

Lemma findById_replace_other (id id' : ObjectId) (l : list Todo) (t' : Todo) :
  id <> id' -> _id t' = id' ->
  findById id (replaceById id' t' l) = findById id l.
Proof.
  intros Hne Hid. induction l as [|x l IH]; simpl; [reflexivity|].
  destruct (N.eqb_spec (_id x) id') as [E|E]; simpl.
  - rewrite Hid. destruct (N.eqb_spec id' id); [congruence|].
    destruct (N.eqb_spec (_id x) id); [congruence|reflexivity].
  - now rewrite IH.
Qed.

(** A path the update leaves out is left out of the cast update, and
    the enumerated paths are carried over as they are. *)
Lemma validate_update_ok_inv (u : Updates) (c : CastUpdates) :
  validate_update u = Ok c ->
  (u_title u = None -> c_title c = None)
  /\ c_status c = u_status u
  /\ c_priority c = u_priority u
  /\ c_category c = u_category u
  /\ (u_dueDate u = None -> c_dueDate c = None).
Proof.
  unfold validate_update, bind.
  destruct (check_opt (check_required "title") _); [|discriminate].
  destruct (check_opt (check_enum "status" status_enum) _); [|discriminate].
  destruct (check_opt (check_enum "priority" priority_enum) _); [|discriminate].
  destruct (check_opt (check_enum "category" category_enum) _); [|discriminate].
  destruct (check_opt (check_date "dueDate") (u_dueDate u)) as [due|] eqn:Ed;
    [|discriminate].
  intros H. inversion H; subst; simpl. repeat split.
  - now intros ->.
  - intros Hn. rewrite Hn in Ed. simpl in Ed. now inversion Ed.
Qed.

Lemma apply_update_frame (c : CastUpdates) (t : Todo) :
  _id (apply_update c t) = _id t
  /\ createdAt (apply_update c t) = createdAt t
  /\ (c_title c = None -> title (apply_update c t) = title t)
  /\ (c_status c = None -> status (apply_update c t) = status t)
  /\ (c_priority c = None -> priority (apply_update c t) = priority t)
  /\ (c_category c = None -> category (apply_update c t) = category t)
  /\ (c_dueDate c = None -> dueDate (apply_update c t) = dueDate t).
Proof. unfold apply_update; simpl. repeat split; now intros ->. Qed.

Lemma apply_update_nothing (c : CastUpdates) (t : Todo) :
  c_title c = None -> c_status c = None -> c_priority c = None ->
  c_category c = None -> c_dueDate c = None -> apply_update c t = t.
Proof.
  unfold apply_update. intros -> -> -> -> ->. now destruct t.
Qed.

(** C4: a PUT request changes, in a stored task, at most the fields its
    body supplies.  For a task [t] stored under [oid], whatever the
    request: afterwards a task is stored under [oid], with the [_id] and
    [createdAt] of [t] and with [t]'s value in every field absent from
    the body; it is [t] itself when the body is empty, and when the
    request addresses another id. *)
Theorem C4_update_changes_only_supplied_fields (env : Env) (id : IdParam)
    (b : Body) (d : Db) (oid : ObjectId) (t : Todo) :
  findById oid (docs d) = Some t ->
  exists t',
    findById oid (docs (snd (put_todo env id b d))) = Some t'
    /\ _id t' = _id t
    /\ createdAt t' = createdAt t
    /\ (b_title b = None -> title t' = title t)
    /\ (b_status b = None -> status t' = status t)
    /\ (b_priority b = None -> priority t' = priority t)
    /\ (b_category b = None -> category t' = category t)
    /\ (b_dueDate b = None -> dueDate t' = dueDate t)
    /\ (b = empty_body -> t' = t)
    /\ (id <> WellFormed oid -> t' = t).
Proof.
  intros Hf.
  assert (Hsame : forall d', docs d' = docs d ->
            exists t', findById oid (docs d') = Some t'
              /\ _id t' = _id t /\ createdAt t' = createdAt t
              /\ (b_title b = None -> title t' = title t)
              /\ (b_status b = None -> status t' = status t)
              /\ (b_priority b = None -> priority t' = priority t)
              /\ (b_category b = None -> category t' = category t)
              /\ (b_dueDate b = None -> dueDate t' = dueDate t)
              /\ (b = empty_body -> t' = t)
              /\ (id <> WellFormed oid -> t' = t)).
  { intros d' ->. exists t. now repeat split. }
  unfold put_todo. destruct id as [text|id']; [now apply Hsame|].
  unfold findByIdAndUpdate.
  destruct (validate_update (updates_of b)) as [c|err] eqn:Hv;
    [|now apply Hsame].
  destruct (db_up env); [|now apply Hsame].
  destruct (findById id' (docs d)) as [t0|] eqn:Hf0; [|now apply Hsame].
  cbn [snd docs].
  apply validate_update_ok_inv in Hv as (Ht & Hs & Hp & Hc & Hd).
  unfold updates_of in *;
    cbn [u_title u_status u_priority u_category u_dueDate] in *.
  destruct (apply_update_frame c t0) as (Fi & Fc & Ft & Fs & Fp & Fg & Fd).
  pose proof (findById_id _ _ _ Hf0) as Hid0.
  destruct (N.eq_dec oid id') as [<-|Hne].
  - rewrite Hf in Hf0. inversion Hf0; subst t0.
    exists (apply_update c t).
    rewrite (findById_replace_same oid (docs d) t) by congruence.
    repeat split; auto.
    + intros Hn. apply Ft, Ht. now rewrite Hn.
    + intros Hn. apply Fs. congruence.
    + intros Hn. apply Fp. congruence.
    + intros Hn. apply Fg. congruence.
    + intros ->. apply apply_update_nothing; simpl in *; auto; congruence.
    + congruence.
  - exists t. rewrite findById_replace_other by congruence.
    now repeat split.
Qed.

Lemma C4_update_changes_only_supplied_fields_witness :
  exists t',
    findById 2%N (docs (snd (put_todo (mkEnv 9000 true) (WellFormed 2%N)
                               complete_update sample_db))) = Some t'
    /\ _id t' = _id report
    /\ createdAt t' = createdAt report
    /\ (b_title complete_update = None -> title t' = title report)
    /\ (b_status complete_update = None -> status t' = status report)
    /\ (b_priority complete_update = None -> priority t' = priority report)
    /\ (b_category complete_update = None -> category t' = category report)
    /\ (b_dueDate complete_update = None -> dueDate t' = dueDate report)
    /\ (complete_update = empty_body -> t' = report)
    /\ (WellFormed 2%N <> WellFormed 2%N -> t' = report).
Proof.
  apply (C4_update_changes_only_supplied_fields (mkEnv 9000 true)
           (WellFormed 2%N) complete_update sample_db 2%N report).
  reflexivity.
Defined.

(* ================================================================== *)
(** * The view                                                          *)
(* ================================================================== *)

(** What [getFilteredTodos] hands to [sort]. *)
Lemma view_unfold (e : Js.engine) (cache : list Todo)
    (filterStatus searchText sortKey : string) :
  view e cache filterStatus searchText sortKey
  = Js.sort e (compareTodos sortKey) (filter (in_view filterStatus searchText) cache).
Proof.
  unfold view, getFilteredTodos, handleSort, handleSearch, handleFilterChange,
    set_view.
  cbn [todos currentFilter currentSort searchQuery].
  rewrite truthy_toLowerCase. f_equal.
  unfold in_view, status_matches, search_matches.
  destruct (String.eqb filterStatus "all") eqn:Ef,
           (Js.truthy searchText) eqn:Eq; cbn [negb orb andb].
  - apply filter_ext. intros t. reflexivity.
  - symmetry. induction cache as [|t l IH]; simpl; [reflexivity|]. now f_equal.
  - induction cache as [|t l IH]; simpl; [reflexivity|].
    destruct (String.eqb (status t) filterStatus); simpl.
    + destruct (_ || _); [now f_equal|exact IH].
    + exact IH.
  - induction cache as [|t l IH]; simpl; [reflexivity|].
    destruct (String.eqb (status t) filterStatus); simpl; [now f_equal|exact IH].
Qed.

Lemma in_view_spec (filterStatus searchText : string) (t : Todo) :
  in_view filterStatus searchText t = true <->
  (filterStatus = "all" \/ status t = filterStatus)
  /\ (searchText = ""
      \/ occurs_ignoring_case searchText (title t)
      \/ occurs_ignoring_case searchText (category t)).
Proof.
  unfold in_view, occurs_ignoring_case.
  rewrite andb_true_iff, !orb_true_iff, !String.eqb_eq, negb_true_iff,
    truthy_false, !includes_spec.
  tauto.
Qed.

(** C5: the view holds exactly the cached tasks that pass the status
    filter (any status under 'all') and, when the search text is not
    empty, contain it, case ignored, in the title or in the category:
    it is a rearrangement of those tasks, and a task is in it if and
    only if it is such a task of the cache. *)
Theorem C5_view_holds_exactly_the_matches (e : Js.engine) (cache : list Todo)
    (filterStatus searchText sortKey : string) :
  Permutation (view e cache filterStatus searchText sortKey)
              (filter (in_view filterStatus searchText) cache)
  /\ forall t,
       In t (view e cache filterStatus searchText sortKey) <->
       In t cache
       /\ (filterStatus = "all" \/ status t = filterStatus)
       /\ (searchText = ""
           \/ occurs_ignoring_case searchText (title t)
           \/ occurs_ignoring_case searchText (category t)).
Proof.
  rewrite view_unfold. split; [apply sort_perm|].
  intros t. rewrite <- in_view_spec, <- filter_In. split; intros H.
  - eapply Permutation_in; [apply sort_perm|exact H].
  - eapply Permutation_in; [symmetry; apply sort_perm|exact H].
Qed.

(* ================================================================== *)
(** * The client cache and the undo slot                                *)
(* ================================================================== *)

(** A request fails when the network is down or the answer is not in
    the 200 range, and only then. *)
Lemma apiRequest_fails (n : Net) (rq : Request) (w : World) :
  fst (apiRequest n rq w) = Err tt <->
  net_up n = false \/ ok (fst (handle (srv n) rq (db w))) = false.
Proof.
  unfold apiRequest. destruct (net_up n); [|simpl; tauto].
  destruct (handle (srv n) rq (db w)) as [r d']. cbn [fst].
  destruct (ok r); simpl; split; intros H; try discriminate; auto.
  destruct H; discriminate.
Qed.

(** A create or update request that is answered in the 200 range
    carries a task: the client reads the payload of such an answer as
    one. *)
Lemma answered_with_task (env : Env) (rq : Request) (d : Db) :
  match rq with POST_todos _ | PUT_todo _ _ => True | _ => False end ->
  ok (fst (handle env rq d)) = true ->
  exists t, as_todo (payload (fst (handle env rq d))) = Some t.
Proof.
  destruct rq as [b|id b|id|]; try contradiction; intros _; cbn [handle].
  - unfold post_todos. destruct (b_title b) as [ttl|]; [|discriminate].
    destruct (_ || _); [discriminate|].
    destruct (construct env _ d) as [doc d1].
    destruct (save env doc d1) as [[t|err] d2]; [|discriminate].
    intros _. now exists t.
  - unfold put_todo. destruct id as [text|oid]; [discriminate|].
    destruct (findByIdAndUpdate env oid (updates_of b) d) as [[[t|]|err] d'];
      try discriminate.
    intros _. now exists t.
Qed.

(** A request leaves the client state and the notices alone. *)
Lemma apiRequest_frame (n : Net) (rq : Request) (w : World) :
  st (snd (apiRequest n rq w)) = st w
  /\ shown (snd (apiRequest n rq w)) = shown w
  /\ sent (snd (apiRequest n rq w)) = sent w ++ [rq].
Proof.
  unfold apiRequest. destruct (net_up n); [|now repeat split].
  destruct (handle (srv n) rq (db w)) as [r d'].
  destruct (ok r); now repeat split.
Qed.

(** C9: when the request of a mutation (create, update, delete,
    clear-all) fails, the mutation throws, the client state, and with it
    the cache, is as it was, and an error toast is raised. *)
Theorem C9_failed_mutation_leaves_cache (n : Net) (m : Mutation) (w : World) :
  fst (apiRequest n (request_of m) w) = Err tt ->
  fst (run n m w) = true
  /\ st (snd (run n m w)) = st w
  /\ todos (st (snd (run n m w))) = todos (st w)
  /\ shown (snd (run n m w)) = shown w ++ [failure_toast m].
Proof.
  intros H.
  destruct (apiRequest_frame n (request_of m) w) as (Hst & Hsh & _).
  destruct m; unfold run, createTodo, updateTodo, deleteTodo, clearAllTodos;
    cbn [request_of] in *;
    destruct (apiRequest n _ w) as [[p|[]] w1]; cbn [fst snd] in *;
    try discriminate H;
    unfold showToast, notify; cbn [fst snd st shown failure_toast];
    rewrite Hst, Hsh; now repeat split.
Qed.

Lemma C9_failed_mutation_leaves_cache_witness :
  fst (run offline (Delete 1%N) sample_world) = true
  /\ st (snd (run offline (Delete 1%N) sample_world)) = st sample_world
  /\ todos (st (snd (run offline (Delete 1%N) sample_world)))
     = todos (st sample_world)
  /\ shown (snd (run offline (Delete 1%N) sample_world))
     = shown sample_world ++ [failure_toast (Delete 1%N)].
Proof.
  apply (C9_failed_mutation_leaves_cache offline (Delete 1%N) sample_world).
  reflexivity.
Defined.

(** C10: with the undo slot empty, undo does nothing: the world is as
    it was, so the cache is unchanged and no request is sent.  The slot
    is empty after a successful undo as well, so undoing again creates
    nothing. *)
Theorem C10_undo_with_empty_slot_is_noop (n : Net) (w : World) :
  deletedTodo (st w) = None \/ after_successful_undo w ->
  deletedTodo (st w) = None
  /\ handleUndo n w = w
  /\ todos (st (handleUndo n w)) = todos (st w)
  /\ sent (handleUndo n w) = sent w.
Proof.
  intros H.
  assert (Hnone : deletedTodo (st w) = None).
  { destruct H as [H|(n0 & w0 & t & Hslot & Hok & ->)]; [exact H|].
    unfold handleUndo. rewrite Hslot.
    destruct (createTodo n0 (todoData_of t) w0) as [[[]|[]] w1];
      [reflexivity|discriminate Hok]. }
  assert (Hw : handleUndo n w = w) by (unfold handleUndo; now rewrite Hnone).
  rewrite Hw. now repeat split.
Qed.

Lemma C10_undo_with_empty_slot_is_noop_witness :
  deletedTodo (st sample_world) = None
  /\ handleUndo online sample_world = sample_world
  /\ todos (st (handleUndo online sample_world)) = todos (st sample_world)
  /\ sent (handleUndo online sample_world) = sent sample_world.
Proof.
  apply (C10_undo_with_empty_slot_is_noop online sample_world).
  left. reflexivity.
Defined.

(** ** Delete, then undo *)

Lemma findById_NoDup (l : list Todo) (t : Todo) :
  NoDup (map _id l) -> In t l -> findById (_id t) l = Some t.
Proof.
  induction l as [|x l IH]; simpl; [tauto|].
  intros Hnd Hin. apply NoDup_cons_iff in Hnd as [Hx Hnd].
  destruct Hin as [->|Hin]; [now rewrite N.eqb_refl|].
  destruct (N.eqb_spec (_id x) (_id t)) as [E|_]; [|auto].
  exfalso. apply Hx. rewrite E. now apply in_map.
Qed.

Lemma status_truthy (s : string) :
  in_enum status_enum s = true -> Js.truthy s = true.
Proof. destruct s; [discriminate|reflexivity]. Qed.

Lemma priority_truthy (s : string) :
  in_enum priority_enum s = true -> Js.truthy s = true.
Proof. destruct s; [discriminate|reflexivity]. Qed.

Lemma category_truthy (s : string) :
  in_enum category_enum s = true -> Js.truthy s = true.
Proof. destruct s; [discriminate|reflexivity]. Qed.

Lemma due_roundtrip (t : Todo) :
  castDate (due_or_null (Some (match dueDate t with
                               | Some ms => DInstant ms
                               | None => DNull
                               end))) = Some (dueDate t).
Proof. now destruct (dueDate t). Qed.

(** Posting the content of a task that meets the schema creates its
    like under a fresh ObjectId. *)
Lemma post_todoData_of (env : Env) (t : Todo) (d : Db) :
  schema_ok t = true -> db_up env = true ->
  post_todos env (todoData_of t) d
  = (mkResponse 201 (PTodo (recreated env d t)),
     mkDb (docs d ++ [recreated env d t]) (N.succ (nextId d))).
Proof.
  unfold schema_ok. rewrite !andb_true_iff, String.eqb_eq.
  intros ((((Htrim & Htitle) & Hs) & Hp) & Hc) Hup.
  unfold post_todos, todoData_of.
  cbn [b_title b_status b_priority b_category b_dueDate].
  rewrite Htrim, Htitle. cbn [negb orb].
  replace (String.eqb (title t) "") with false
    by (destruct (title t); [discriminate Htitle|reflexivity]).
  unfold construct, save, validate, bind, check_required, check_enum, check_date.
  cbn [fst snd f_title f_status f_priority f_category f_dueDate
       _id title status priority category dueDate createdAt docs nextId].
  rewrite !or_default_truthy
    by auto using status_truthy, priority_truthy, category_truthy.
  rewrite Htrim, Htitle, Hs, Hp, Hc, due_roundtrip, Hup. reflexivity.
Qed.

Lemma delete_todo_found (env : Env) (id : ObjectId) (d : Db) (t0 : Todo) :
  db_up env = true -> findById id (docs d) = Some t0 ->
  delete_todo env (WellFormed id) d
  = (mkResponse 200 (PDeleted "Todo deleted successfully" t0),
     mkDb (removeById id (docs d)) (nextId d)).
Proof.
  intros Hup Hf. unfold delete_todo, findByIdAndDelete. now rewrite Hup, Hf.
Qed.

(** A request that gets through and is answered in the 200 range
    returns the payload. *)
Lemma apiRequest_ok (n : Net) (rq : Request) (w : World) (r : Response)
    (d' : Db) :
  net_up n = true -> handle (srv n) rq (db w) = (r, d') -> ok r = true ->
  apiRequest n rq w
  = (Ok (payload r), mkWorld (st w) d' (sent w ++ [rq]) (shown w)).
Proof.
  intros Hn Hh Hok. unfold apiRequest. rewrite Hn, Hh.
  cbn [st db sent shown]. now rewrite Hok.
Qed.

(** Deleting a task that the cache and the server both hold. *)
Lemma deleteTodo_found (n : Net) (w : World) (t t0 : Todo) :
  request_succeeds n = true ->
  findById (_id t) (todos (st w)) = Some t ->
  findById (_id t) (docs (db w)) = Some t0 ->
  deleteTodo n (_id t) w
  = (Ok tt,
     mkWorld
       (set_undoTimeout true
          (set_todos (removeById (_id t) (todos (st w)))
             (set_deletedTodo (Some t) (st w))))
       (mkDb (removeById (_id t) (docs (db w))) (nextId (db w)))
       (sent w ++ [DELETE_todo (WellFormed (_id t))])
       (shown w ++ [UndoSnackbar "Task deleted"])).
Proof.
  intros Hn Hcache Hsrv. apply andb_true_iff in Hn as [Hn Hd].
  unfold deleteTodo.
  rewrite (apiRequest_ok n (DELETE_todo (WellFormed (_id t))) w _ _ Hn
             (delete_todo_found _ _ _ t0 Hd Hsrv) eq_refl).
  cbn [st]. now rewrite Hcache.
Qed.

(** Creating from the content of a task that meets the schema. *)
Lemma createTodo_of (n : Net) (w : World) (t : Todo) :
  request_succeeds n = true -> schema_ok t = true ->
  createTodo n (todoData_of t) w
  = (Ok tt,
     mkWorld
       (set_todos (recreated (srv n) (db w) t :: todos (st w)) (st w))
       (mkDb (docs (db w) ++ [recreated (srv n) (db w) t])
             (N.succ (nextId (db w))))
       (sent w ++ [POST_todos (todoData_of t)])
       (shown w ++ [Toast "Task added successfully!" "success"])).
Proof.
  intros Hn Hok. apply andb_true_iff in Hn as [Hn Hd].
  unfold createTodo.
  rewrite (apiRequest_ok n (POST_todos (todoData_of t)) w _ _ Hn
             (post_todoData_of _ t _ Hok Hd) eq_refl).
  reflexivity.
Qed.

(** Deleting a cached task and undoing at once, no timer firing in
    between, puts at the head of the cache a task with the title,
    status, priority, category and due date of the deleted one and with
    another id; the rest of the cache is the old cache without the
    deleted task. *)
Theorem delete_then_undo_at_once_recreates (n1 n2 : Net) (w : World) (t : Todo) :
  In t (todos (st w)) ->
  NoDup (map _id (todos (st w))) ->
  schema_ok t = true ->
  (exists t0, findById (_id t) (docs (db w)) = Some t0) ->
  ids_drawn (db w) ->
  request_succeeds n1 = true ->
  request_succeeds n2 = true ->
  exists t',
    todos (st (delete_then_undo n1 n2 t w))
    = t' :: removeById (_id t) (todos (st w))
    /\ title t' = title t
    /\ status t' = status t
    /\ priority t' = priority t
    /\ category t' = category t
    /\ dueDate t' = dueDate t
    /\ _id t' <> _id t
    /\ In t' (docs (db (delete_then_undo n1 n2 t w)))
    /\ deletedTodo (st (delete_then_undo n1 n2 t w)) = None.
Proof.
  intros Hin Hnd Hok [t0 Hsrv] Hids H1 H2.
  pose proof (findById_NoDup _ _ Hnd Hin) as Hcache.
  unfold delete_then_undo.
  rewrite (deleteTodo_found n1 w t t0 H1 Hcache Hsrv). cbn [snd].
  unfold handleUndo. cbn [st deletedTodo set_undoTimeout set_todos
                          set_deletedTodo].
  rewrite (createTodo_of n2 _ t H2 Hok).
  eexists. split; [reflexivity|]. repeat split.
  - unfold recreated. cbn [_id db nextId].
    apply findById_In in Hsrv as Hin0. apply findById_id in Hsrv as Hid0.
    unfold ids_drawn in Hids. rewrite Forall_forall in Hids.
    specialize (Hids _ Hin0). lia.
  - cbn. apply in_or_app. right. now left.
Qed.

Lemma delete_then_undo_at_once_recreates_witness :
  exists t',
    todos (st (delete_then_undo online online milk sample_world))
    = t' :: removeById (_id milk) (todos (st sample_world))
    /\ title t' = title milk
    /\ status t' = status milk
    /\ priority t' = priority milk
    /\ category t' = category milk
    /\ dueDate t' = dueDate milk
    /\ _id t' <> _id milk
    /\ In t' (docs (db (delete_then_undo online online milk sample_world)))
    /\ deletedTodo (st (delete_then_undo online online milk sample_world)) = None.
Proof.
  apply (delete_then_undo_at_once_recreates online online sample_world milk).
  - simpl. right. right. left. reflexivity.
  - simpl. repeat constructor; simpl; intuition discriminate.
  - reflexivity.
  - exists milk. reflexivity.
  - unfold ids_drawn. simpl. repeat constructor; simpl; lia.
  - reflexivity.
  - reflexivity.
Defined.

(** Once the undo window has elapsed (the snackbar timer fired, then
    the timer that empties the slot), undo does nothing. *)
Lemma undo_after_window_is_noop (n : Net) (w : World) :
  undoTimeout (st w) = true ->
  handleUndo n (slotClearFires (undoTimeoutFires w))
  = slotClearFires (undoTimeoutFires w).
Proof.
  intros H. unfold undoTimeoutFires. rewrite H. reflexivity.
Qed.

(** Under the sort key 'dueDate' every view is its dated tasks, in
    ascending order of due instant, followed by its undated tasks. *)
Lemma due_view_dated_first (e : Js.engine) (cache : list Todo)
    (filterStatus searchText : string) :
  exists dated undated,
    view e cache filterStatus searchText "dueDate" = dated ++ undated
    /\ Forall (fun t => has_due t = true) dated
    /\ ascending due_instant dated
    /\ Forall (fun t => no_due t = true) undated
    /\ Permutation undated
         (filter no_due (filter (in_view filterStatus searchText) cache)).
Proof.
  rewrite view_unfold, due_sort_shape.
  set (l := filter (in_view filterStatus searchText) cache).
  eexists _, _. split; [reflexivity|]. split; [|split; [|split]].
  - eapply Permutation_Forall; [symmetry; apply sort_perm|].
    apply Forall_forall. intros t Ht. now apply filter_In in Ht.
  - apply due_sort_dated_ascending.
  - assert (H : Forall (fun t => no_due t = true) (filter no_due l)).
    { apply Forall_forall. intros t Ht. now apply filter_In in Ht. }
    destruct e; [exact H|now apply Forall_rev].
  - destruct e; [reflexivity|symmetry; apply Permutation_rev].
Qed.

(* ================================================================== *)
(** * Further facts about the JavaScript primitives                     *)
(* ================================================================== *)

Lemma lower_char_idem (c : ascii) :
  Js.lower_char (Js.lower_char c) = Js.lower_char c.
Proof.
  destruct c as [[] [] [] [] [] [] [] []]; vm_compute; reflexivity.
Qed.

Lemma toLowerCase_idem (s : string) :
  Js.toLowerCase (Js.toLowerCase s) = Js.toLowerCase s.
Proof.
  induction s as [|c s IH]; simpl; [reflexivity|].
  now rewrite lower_char_idem, IH.
Qed.

Lemma drop_white_length (l : list ascii) :
  (List.length (Js.drop_white l) <= List.length l)%nat.
Proof.
  induction l as [|c r IH]; simpl; [lia|].
  destruct (Js.is_white_space c); simpl; lia.
Qed.

(** [drop_white] leaves a list alone exactly when the list does not
    start with white space. *)
Lemma drop_white_fixed (l : list ascii) :
  Js.drop_white l = l <->
  match l with [] => True | c :: _ => Js.is_white_space c = false end.
Proof.
  destruct l as [|c r]; simpl; [tauto|].
  destruct (Js.is_white_space c) eqn:Hc; split; intros H;
    try reflexivity; try discriminate.
  pose proof (drop_white_length r) as Hlen. rewrite H in Hlen.
  simpl in Hlen. lia.
Qed.

Lemma drop_white_idem (l : list ascii) :
  Js.drop_white (Js.drop_white l) = Js.drop_white l.
Proof.
  induction l as [|c r IH]; simpl; [reflexivity|].
  destruct (Js.is_white_space c) eqn:Hc; [exact IH|].
  simpl. now rewrite Hc.
Qed.

Lemma drop_white_split (l : list ascii) :
  exists ws, l = ws ++ Js.drop_white l.
Proof.
  induction l as [|c r [ws IH]]; simpl; [now exists []|].
  destruct (Js.is_white_space c).
  - exists (c :: ws). simpl. now f_equal.
  - now exists [].
Qed.

(** Trimming both ends leaves a list that [drop_white] leaves alone at
    either end. *)
Lemma trim_ends_fixed (l : list ascii) :
  let r := Js.drop_white (rev (Js.drop_white l)) in
  Js.drop_white r = r /\ Js.drop_white (rev r) = rev r.
Proof.
  cbv zeta. split; [apply drop_white_idem|].
  set (m := Js.drop_white l).
  assert (Hm : Js.drop_white m = m) by apply drop_white_idem.
  destruct (drop_white_split (rev m)) as [ws Hws].
  set (r := Js.drop_white (rev m)) in *.
  apply drop_white_fixed. destruct (rev r) as [|c s] eqn:Hr; [exact I|].
  apply (f_equal (@rev ascii)) in Hws. rewrite rev_involutive in Hws.
  rewrite rev_app_distr, Hr in Hws. simpl in Hws.
  apply drop_white_fixed in Hm. now rewrite Hws in Hm.
Qed.

(** [trim] is idempotent. *)
Lemma trim_idem (s : string) : Js.trim (Js.trim s) = Js.trim s.
Proof.
  unfold Js.trim. rewrite list_ascii_of_string_of_list_ascii.
  destruct (trim_ends_fixed (list_ascii_of_string s)) as [H1 H2].
  cbv zeta in *. now rewrite H2, rev_involutive, H1.
Qed.

(* ================================================================== *)
(** * Further facts about the view                                      *)
(* ================================================================== *)

Lemma sort_moves_ext {A : Type} (e1 e2 : Js.engine) (c1 c2 : A -> A -> Z) :
  (forall x y, Js.moves_left e1 c1 x y = Js.moves_left e2 c2 x y) ->
  forall l, Js.sort e1 c1 l = Js.sort e2 c2 l.
Proof.
  intros H l. unfold Js.sort, Js.sort_rev. f_equal.
  assert (Hins : forall x rp, Js.insert_item e1 c1 x rp = Js.insert_item e2 c2 x rp).
  { intros x rp. induction rp as [|y rp IH]; simpl; [reflexivity|].
    now rewrite H, IH. }
  generalize (@nil A). induction l as [|x l IH]; intros acc; simpl;
    [reflexivity|].
  now rewrite Hins, IH.
Qed.

Lemma moves_left_antisym {A : Type} (c : A -> A -> Z) :
  (forall x y, c x y = - c y x) ->
  forall x y, Js.moves_left Js.ItemFirst c x y = Js.moves_left Js.ItemSecond c x y.
Proof.
  intros H x y. unfold Js.moves_left. rewrite (H x y).
  destruct (Z.ltb_spec (- c y x) 0), (Z.ltb_spec 0 (c y x)); try reflexivity; lia.
Qed.

(** Every comparison but the one by due date answers a swapped pair
    with the opposite number. *)
Lemma compareTodos_antisym (sortKey : string) (a b : Todo) :
  sortKey <> "dueDate" ->
  compareTodos sortKey a b = - compareTodos sortKey b a.
Proof.
  intros Hk. unfold compareTodos.
  destruct (String.eqb sortKey "newest"); [lia|].
  destruct (String.eqb sortKey "oldest"); [lia|].
  destruct (String.eqb sortKey "priority").
  - destruct (priorityOrder (priority a)), (priorityOrder (priority b)); lia.
  - destruct (String.eqb_spec sortKey "dueDate"); [contradiction|reflexivity].
Qed.

(** Under every sort key but 'dueDate', and under 'priority' on a
    cache whose priorities are all of the enumerated set (where the
    comparison is transitive), the view is the same list on an engine
    that hands the item first and on one that hands it second. *)
Theorem view_same_on_both_engines (cache : list Todo)
    (filterStatus searchText sortKey : string) :
  sortKey <> "dueDate" ->
  (sortKey = "priority" ->
   Forall (fun t => in_enum priority_enum (priority t) = true) cache) ->
  view Js.ItemFirst cache filterStatus searchText sortKey
  = view Js.ItemSecond cache filterStatus searchText sortKey.
Proof.
  intros Hk _. rewrite !view_unfold. apply sort_moves_ext.
  apply moves_left_antisym. intros x y. now apply compareTodos_antisym.
Qed.

Lemma view_same_on_both_engines_witness :
  view Js.ItemFirst [milk; report; gym] "all" "" "priority"
  = view Js.ItemSecond [milk; report; gym] "all" "" "priority".
Proof.
  apply (view_same_on_both_engines [milk; report; gym] "all" "" "priority").
  - discriminate.
  - intros _. repeat constructor.
Defined.

Lemma StronglySorted_rev {A : Type} (R : A -> A -> Prop) (l : list A) :
  StronglySorted R l -> StronglySorted (fun a b => R b a) (rev l).
Proof.
  induction 1 as [|a l Hs IH Ha]; simpl; [constructor|].
  apply StronglySorted_app; [exact IH|repeat constructor|].
  intros x y Hx [<-|[]]. apply in_rev in Hx.
  rewrite Forall_forall in Ha. now apply Ha.
Qed.

(** Filtering a cache keeps its creation instants distinct. *)
Lemma distinct_createdAt_filter (keep : Todo -> bool) (cache : list Todo) :
  NoDup (map createdAt cache) -> NoDup (map createdAt (filter keep cache)).
Proof.
  intros Hnd. induction cache as [|t cache IH]; cbn [filter]; [constructor|].
  cbn [map] in Hnd. apply NoDup_cons_iff in Hnd as [Hfresh Hrest].
  destruct (keep t); [|now apply IH].
  cbn [map]. constructor; [|now apply IH].
  intros Hin. apply Hfresh.
  apply in_map_iff in Hin as (u & Hu & Hin). apply filter_In in Hin as [Hin _].
  rewrite <- Hu. now apply in_map.
Qed.

Lemma oldest_by_key (e : Js.engine) (x y : Todo) :
  Js.moves_left e (compareTodos "oldest") x y = (createdAt x <? createdAt y).
Proof.
  destruct e; unfold Js.moves_left, compareTodos; simpl;
    destruct (Z.ltb_spec (createdAt x) (createdAt y));
    [apply Z.ltb_lt|apply Z.ltb_ge|apply Z.ltb_lt|apply Z.ltb_ge]; lia.
Qed.

(** With pairwise distinct [createdAt], the view under 'oldest' is the
    view under 'newest' read backwards, whatever the filter and the
    search text. *)
Theorem view_oldest_reverses_newest (e : Js.engine) (cache : list Todo)
    (filterStatus searchText : string) :
  NoDup (map createdAt cache) ->
  view e cache filterStatus searchText "oldest"
  = rev (view e cache filterStatus searchText "newest").
Proof.
  intros Hnd. rewrite !view_unfold.
  set (l := filter (in_view filterStatus searchText) cache).
  assert (Hl : NoDup (map createdAt l)) by now apply distinct_createdAt_filter.
  apply strictly_ascending_unique with (key := createdAt).
  - apply ascending_strict.
    + apply sort_ascending with (P := fun _ => True).
      * intros x y _ _. apply oldest_by_key.
      * apply Forall_forall. auto.
    + eapply Permutation_NoDup; [|exact Hl].
      apply Permutation_map. symmetry. apply sort_perm.
  - pose proof (sort_newest_strict e l Hl) as Hs.
    apply StronglySorted_rev in Hs. unfold strictly_ascending.
    eapply StronglySorted_ind with (P := fun l' =>
      StronglySorted (fun a b => createdAt a < createdAt b) l');
      [constructor| |exact Hs].
    intros a l' _ IH Ha. constructor; [exact IH|].
    eapply Forall_impl; [|exact Ha]. simpl. intros; lia.
  - rewrite <- Permutation_rev. now rewrite !sort_perm.
Qed.

Lemma view_oldest_reverses_newest_witness :
  view Js.ItemSecond [milk; gym; report] "all" "" "oldest"
  = rev (view Js.ItemSecond [milk; gym; report] "all" "" "newest").
Proof.
  apply (view_oldest_reverses_newest Js.ItemSecond [milk; gym; report] "all" "").
  simpl. repeat constructor; simpl; intuition lia.
Defined.

(** ** Stability *)

Section Stable.
Context {A : Type}.
Variable e : Js.engine.
Variable comparefn : A -> A -> Z.
Variable P : A -> Prop.
Variable key : A -> Z.
Hypothesis by_key : forall x y, P x -> P y ->
  Js.moves_left e comparefn x y = (key x <? key y).
Variable k : Z.

Local Abbreviation has_key := (fun y : A => key y =? k).

(** Inserting does not reorder the elements of one key. *)
Lemma insert_item_same_key (x : A) (rp : list A) :
  P x -> Forall P rp ->
  filter has_key (Js.insert_item e comparefn x rp) = filter has_key (x :: rp).
Proof.
  intros Hx HP. induction rp as [|y rp IH]; [reflexivity|].
  inversion HP as [|? ? Py HPr]; subst. cbn [Js.insert_item].
  rewrite (by_key x y Hx Py).
  destruct (Z.ltb_spec (key x) (key y)) as [Hlt|_]; [|reflexivity].
  cbn [filter] in *. rewrite (IH HPr).
  destruct (Z.eqb_spec (key x) k), (Z.eqb_spec (key y) k); try reflexivity.
  lia.
Qed.

Lemma sort_fold_same_key (l acc : list A) :
  Forall P l -> Forall P acc ->
  filter has_key (fold_left (fun a x => Js.insert_item e comparefn x a) l acc)
  = rev (filter has_key l) ++ filter has_key acc.
Proof.
  revert acc. induction l as [|x l IH]; intros acc Hl Hacc; [reflexivity|].
  inversion Hl; subst. cbn [fold_left].
  rewrite IH by (auto using insert_item_Forall).
  rewrite insert_item_same_key by assumption.
  cbn [filter]. destruct (key x =? k); [|reflexivity].
  cbn [rev]. now rewrite <- app_assoc.
Qed.

(** [sort] keeps the elements of one key in the order received. *)
Lemma sort_same_key (l : list A) :
  Forall P l ->
  filter has_key (Js.sort e comparefn l) = filter has_key l.
Proof.
  intros Hl. unfold Js.sort, Js.sort_rev. rewrite filter_rev.
  rewrite sort_fold_same_key by (auto; constructor).
  cbn [filter]. now rewrite app_nil_r, rev_involutive.
Qed.
End Stable.

Lemma priority_by_key (e : Js.engine) (x y : Todo) :
  in_enum priority_enum (priority x) = true ->
  in_enum priority_enum (priority y) = true ->
  Js.moves_left e (compareTodos "priority") x y
  = (- priority_rank x <? - priority_rank y).
Proof.
  intros Hx Hy.
  assert (Hr : forall t, in_enum priority_enum (priority t) = true ->
            priorityOrder (priority t) = Some (priority_rank t)).
  { intros t Ht. unfold priority_rank, priorityOrder, in_enum in *.
    simpl in Ht.
    destruct (String.eqb (priority t) "high"); [reflexivity|].
    destruct (String.eqb (priority t) "medium"); [reflexivity|].
    destruct (String.eqb (priority t) "low"); [reflexivity|discriminate]. }
  unfold Js.moves_left, compareTodos. cbn [String.eqb Ascii.eqb Bool.eqb].
  rewrite (Hr x Hx), (Hr y Hy).
  destruct e; destruct (Z.ltb_spec (- priority_rank x) (- priority_rank y));
    [apply Z.ltb_lt|apply Z.ltb_ge|apply Z.ltb_lt|apply Z.ltb_ge]; lia.
Qed.

(** Under 'priority', on a cache whose priorities are all of the
    enumerated set, the view runs from the highest rank to the lowest,
    and the tasks of one rank stay in the order received. *)
Theorem view_priority_sorted_and_stable (e : Js.engine) (cache : list Todo)
    (filterStatus searchText : string) :
  Forall (fun t => in_enum priority_enum (priority t) = true) cache ->
  StronglySorted (fun a b => priority_rank a >= priority_rank b)
    (view e cache filterStatus searchText "priority")
  /\ forall r,
       filter (fun t => priority_rank t =? r)
         (view e cache filterStatus searchText "priority")
       = filter (fun t => priority_rank t =? r)
           (filter (in_view filterStatus searchText) cache).
Proof.
  intros Hc. rewrite view_unfold.
  set (l := filter (in_view filterStatus searchText) cache).
  assert (Hl : Forall (fun t => in_enum priority_enum (priority t) = true) l).
  { rewrite Forall_forall in *. intros t Ht. apply filter_In in Ht. now apply Hc. }
  split.
  - pose proof (sort_ascending e (compareTodos "priority") _
                  (fun t => - priority_rank t) l
                  (priority_by_key e) Hl) as Hs.
    unfold ascending in Hs.
    induction Hs as [|a l' Hs IH Ha]; constructor; [exact IH|].
    eapply Forall_impl; [|exact Ha]. simpl. intros; lia.
  - intros r.
    pose proof (sort_same_key e (compareTodos "priority") _
                  (fun t => - priority_rank t) (priority_by_key e) (- r) l Hl)
      as Hst.
    erewrite (filter_ext _ (fun t => - priority_rank t =? - r)).
    + rewrite Hst. apply filter_ext. intros t.
      destruct (Z.eqb_spec (- priority_rank t) (- r)),
               (Z.eqb_spec (priority_rank t) r); try reflexivity; lia.
    + intros t.
      destruct (Z.eqb_spec (- priority_rank t) (- r)),
               (Z.eqb_spec (priority_rank t) r); try reflexivity; lia.
Qed.

Lemma view_priority_sorted_and_stable_witness :
  StronglySorted (fun a b => priority_rank a >= priority_rank b)
    (view Js.ItemFirst [milk; report; gym] "all" "" "priority")
  /\ forall r,
       filter (fun t => priority_rank t =? r)
         (view Js.ItemFirst [milk; report; gym] "all" "" "priority")
       = filter (fun t => priority_rank t =? r)
           (filter (in_view "all" "") [milk; report; gym]).
Proof.
  apply (view_priority_sorted_and_stable Js.ItemFirst [milk; report; gym]
           "all" "").
  repeat constructor.
Defined.

(** Under a sort key that is none of 'newest', 'oldest', 'priority' and
    'dueDate', the view is the filtered cache in the order received. *)
Theorem view_unknown_sort_key_keeps_order (e : Js.engine) (cache : list Todo)
    (filterStatus searchText sortKey : string) :
  sortKey <> "newest" -> sortKey <> "oldest" ->
  sortKey <> "priority" -> sortKey <> "dueDate" ->
  view e cache filterStatus searchText sortKey
  = filter (in_view filterStatus searchText) cache.
Proof.
  intros H1 H2 H3 H4. rewrite view_unfold.
  set (l := filter (in_view filterStatus searchText) cache).
  assert (Hc : forall a b, compareTodos sortKey a b = 0).
  { intros a b. unfold compareTodos.
    destruct (String.eqb_spec sortKey "newest"); [contradiction|].
    destruct (String.eqb_spec sortKey "oldest"); [contradiction|].
    destruct (String.eqb_spec sortKey "priority"); [contradiction|].
    destruct (String.eqb_spec sortKey "dueDate"); [contradiction|reflexivity]. }
  assert (Hins : forall x rp,
            Js.insert_item e (compareTodos sortKey) x rp = x :: rp).
  { intros x [|y rp]; [reflexivity|]. cbn [Js.insert_item].
    unfold Js.moves_left. rewrite !Hc. now destruct e. }
  unfold Js.sort, Js.sort_rev.
  assert (Hfold : forall l' acc,
            fold_left (fun a x => Js.insert_item e (compareTodos sortKey) x a)
              l' acc = rev l' ++ acc).
  { induction l' as [|x l' IH]; intros acc; [reflexivity|].
    cbn [fold_left rev]. rewrite Hins, IH. now rewrite <- app_assoc. }
  now rewrite Hfold, app_nil_r, rev_involutive.
Qed.

Lemma view_unknown_sort_key_keeps_order_witness :
  view Js.ItemSecond [milk; report; gym] "completed" "" "any"
  = filter (in_view "completed" "") [milk; report; gym].
Proof.
  apply (view_unknown_sort_key_keeps_order Js.ItemSecond [milk; report; gym]
           "completed" "" "any"); discriminate.
Defined.

(** The view depends on the search text only through its lower-case
    form: searching for a text and for the text in lower case give the
    same view. *)
Theorem view_ignores_case_of_search (e : Js.engine) (cache : list Todo)
    (filterStatus searchText sortKey : string) :
  view e cache filterStatus (Js.toLowerCase searchText) sortKey
  = view e cache filterStatus searchText sortKey.
Proof.
  rewrite !view_unfold. f_equal. apply filter_ext. intros t.
  unfold in_view. now rewrite truthy_toLowerCase, toLowerCase_idem.
Qed.

(** Under 'dueDate' the view is its dated tasks, in ascending order of
    due instant, followed by its undated tasks: in the order received
    on an engine that hands the item first, in the reverse of it on an
    engine that hands the item second. *)
Theorem due_view_order (e : Js.engine) (cache : list Todo)
    (filterStatus searchText : string) :
  exists dated,
    view e cache filterStatus searchText "dueDate"
    = dated
      ++ match e with
         | Js.ItemFirst =>
             filter no_due (filter (in_view filterStatus searchText) cache)
         | Js.ItemSecond =>
             rev (filter no_due (filter (in_view filterStatus searchText) cache))
         end
    /\ Permutation dated
         (filter has_due (filter (in_view filterStatus searchText) cache))
    /\ ascending due_instant dated.
Proof.
  rewrite view_unfold, due_sort_shape.
  eexists. split; [reflexivity|]. split.
  - apply sort_perm.
  - apply due_sort_dated_ascending.
Qed.

(* ================================================================== *)
(** * Further facts about the task API                                  *)
(* ================================================================== *)

Lemma map_id_replaceById (id : ObjectId) (t' : Todo) (l : list Todo) :
  _id t' = id -> map _id (replaceById id t' l) = map _id l.
Proof.
  intros Hid. induction l as [|x l IH]; simpl; [reflexivity|].
  destruct (N.eqb_spec (_id x) id) as [E|_]; simpl; congruence.
Qed.

Lemma removeById_In (id : ObjectId) (l : list Todo) (x : Todo) :
  In x (removeById id l) -> In x l.
Proof.
  induction l as [|y l IH]; simpl; [tauto|].
  destruct (N.eqb (_id y) id); simpl; tauto.
Qed.

Lemma removeById_NoDup (id : ObjectId) (l : list Todo) :
  NoDup (map _id l) -> NoDup (map _id (removeById id l)).
Proof.
  induction l as [|y l IH]; simpl; intros H; [constructor|].
  apply NoDup_cons_iff in H as [Hy Hnd].
  destruct (N.eqb (_id y) id); simpl; [exact Hnd|].
  constructor; [|auto]. intros Hin. apply Hy.
  apply in_map_iff in Hin as (z & Hz & Hin). rewrite <- Hz.
  apply in_map. now apply removeById_In in Hin.
Qed.

Lemma removeById_Forall (P : Todo -> Prop) (id : ObjectId) (l : list Todo) :
  Forall P l -> Forall P (removeById id l).
Proof.
  intros H. apply Forall_forall. rewrite Forall_forall in H.
  intros x Hx. apply H. now apply removeById_In in Hx.
Qed.

Lemma replaceById_Forall (P : Todo -> Prop) (id : ObjectId) (t' : Todo)
    (l : list Todo) :
  P t' -> Forall P l -> Forall P (replaceById id t' l).
Proof.
  intros Ht. induction 1 as [|x l Hx Hl IH]; simpl; [constructor|].
  destruct (N.eqb (_id x) id); constructor; auto.
Qed.

Lemma findById_removeById_same (id : ObjectId) (l : list Todo) :
  NoDup (map _id l) -> findById id (removeById id l) = None.
Proof.
  induction l as [|y l IH]; simpl; intros H; [reflexivity|].
  apply NoDup_cons_iff in H as [Hy Hnd].
  destruct (N.eqb_spec (_id y) id) as [E|E]; simpl.
  - destruct (findById id l) as [t|] eqn:Hf; [|reflexivity].
    exfalso. apply Hy. rewrite E, <- (findById_id _ _ _ Hf).
    apply in_map. now apply findById_In in Hf.
  - destruct (N.eqb_spec (_id y) id); [contradiction|auto].
Qed.

Lemma findById_removeById_other (id oid : ObjectId) (l : list Todo) :
  oid <> id -> findById oid (removeById id l) = findById oid l.
Proof.
  intros Hne. induction l as [|y l IH]; simpl; [reflexivity|].
  destruct (N.eqb_spec (_id y) id) as [E|E]; simpl.
  - destruct (N.eqb_spec (_id y) oid); [congruence|reflexivity].
  - now rewrite IH.
Qed.

Lemma replaceById_absent (id : ObjectId) (t' : Todo) (l : list Todo) :
  findById id l = None -> replaceById id t' l = l.
Proof.
  induction l as [|y l IH]; simpl; [reflexivity|].
  destruct (N.eqb (_id y) id); [discriminate|]. intros H. now rewrite IH.
Qed.

Lemma replaceById_length (id : ObjectId) (t' : Todo) (l : list Todo) :
  List.length (replaceById id t' l) = List.length l.
Proof.
  induction l as [|y l IH]; simpl; [reflexivity|].
  destruct (N.eqb (_id y) id); simpl; congruence.
Qed.

Lemma check_opt_enum_ok (path : string) (vals : list string)
    (v : option string) (r : option unit) :
  check_opt (check_enum path vals) v = Ok r ->
  forall s, v = Some s -> in_enum vals s = true.
Proof.
  intros H s ->. unfold check_opt, bind, check_enum in H.
  destruct (in_enum vals s); [reflexivity|discriminate].
Qed.

Lemma check_opt_required_ok (path : string) (v : option string)
    (r : option unit) :
  check_opt (check_required path) v = Ok r ->
  forall s, v = Some s -> Js.truthy s = true.
Proof.
  intros H s ->. unfold check_opt, bind, check_required in H.
  destruct (Js.truthy s); [reflexivity|discriminate].
Qed.

(** What an update that passed the validators sets. *)
Lemma validate_update_ok_values (u : Updates) (c : CastUpdates) :
  validate_update u = Ok c ->
  (forall s, c_title c = Some s -> Js.trim s = s /\ Js.truthy s = true)
  /\ (forall s, c_status c = Some s -> in_enum status_enum s = true)
  /\ (forall s, c_priority c = Some s -> in_enum priority_enum s = true)
  /\ (forall s, c_category c = Some s -> in_enum category_enum s = true).
Proof.
  unfold validate_update, bind.
  destruct (check_opt (check_required "title") _) eqn:Et; [|discriminate].
  destruct (check_opt (check_enum "status" status_enum) _) eqn:Es;
    [|discriminate].
  destruct (check_opt (check_enum "priority" priority_enum) _) eqn:Ep;
    [|discriminate].
  destruct (check_opt (check_enum "category" category_enum) _) eqn:Eg;
    [|discriminate].
  destruct (check_opt (check_date "dueDate") (u_dueDate u)); [|discriminate].
  intros H. inversion H; subst.
  cbn [c_title c_status c_priority c_category].
  split; [|split; [|split]].
  - intros s Hs. split; [|eapply check_opt_required_ok; eauto].
    destruct (u_title u) as [ttl|]; cbn [option_map] in *; [|discriminate].
    inversion Hs. apply trim_idem.
  - eapply check_opt_enum_ok; eauto.
  - eapply check_opt_enum_ok; eauto.
  - eapply check_opt_enum_ok; eauto.
Qed.

Lemma apply_update_schema_ok (u : Updates) (c : CastUpdates) (t : Todo) :
  validate_update u = Ok c -> schema_ok t = true ->
  schema_ok (apply_update c t) = true.
Proof.
  intros Hv. apply validate_update_ok_values in Hv as (Ht & Hs & Hp & Hg).
  unfold schema_ok, apply_update. cbn [title status priority category].
  rewrite !andb_true_iff, !String.eqb_eq.
  intros ((((H1 & H2) & H3) & H4) & H5).
  destruct (c_title c) as [ttl|]; cbn [set_path];
    [destruct (Ht _ eq_refl) as [Ha Hb]|];
    (destruct (c_status c) as [s|]; cbn [set_path];
       [pose proof (Hs _ eq_refl)|]);
    (destruct (c_priority c) as [p|]; cbn [set_path];
       [pose proof (Hp _ eq_refl)|]);
    (destruct (c_category c) as [g|]; cbn [set_path];
       [pose proof (Hg _ eq_refl)|]);
    repeat split; assumption.
Qed.

(** The task a successful creation stores. *)
Lemma post_created (env : Env) (b : Body) (d : Db) :
  code (fst (post_todos env b d)) = 201 ->
  exists t,
    post_todos env b d
    = (mkResponse 201 (PTodo t), mkDb (docs d ++ [t]) (N.succ (nextId d)))
    /\ _id t = nextId d
    /\ createdAt t = now env
    /\ schema_ok t = true.
Proof.
  unfold post_todos. destruct (b_title b) as [ttl|]; [|discriminate].
  destruct (_ || _); [discriminate|].
  unfold construct, save.
  match goal with
  | |- context [validate (?t0, ?du)] => set (doc := t0); set (due := du)
  end.
  destruct (validate (doc, due)) as [t|err] eqn:Hv; [|discriminate].
  destruct (db_up env); [|discriminate]. intros _.
  exists t. split; [reflexivity|].
  apply validate_ok_inv in Hv
    as (Hi & Ht & Hs & Hp & Hg & Hc & _ & Et & Es & Ep & Eg).
  repeat split; [exact Hi|exact Hc|].
  unfold schema_ok. rewrite Ht, Hs, Hp, Hg, Et, Es, Ep, Eg.
  unfold doc. cbn [title f_title]. now rewrite trim_idem, String.eqb_refl.
Qed.

(** Every handler keeps the collection well formed. *)
Theorem handle_keeps_store_ok (env : Env) (rq : Request) (d : Db) :
  store_ok d -> store_ok (snd (handle env rq d)).
Proof.
  intros [Hids Hnd].
  assert (Hbump : store_ok (mkDb (docs d) (N.succ (nextId d)))).
  { split; [|exact Hnd]. unfold ids_drawn in *. cbn [docs nextId].
    eapply Forall_impl; [|exact Hids]. simpl. intros; lia. }
  assert (Hsame : store_ok d) by now split.
  destruct rq as [b|id b|id|]; cbn [handle].
  - destruct (Z.eq_dec (code (fst (post_todos env b d))) 201) as [E|E].
    + destruct (post_created env b d E) as (t & -> & Hi & _ & _).
      cbn [snd]. split.
      * unfold ids_drawn in *. cbn [docs nextId]. apply Forall_app. split.
        -- eapply Forall_impl; [|exact Hids]. simpl. intros; lia.
        -- repeat constructor. lia.
      * cbn [docs]. rewrite map_app. cbn [map].
        apply NoDup_rev in Hnd. rewrite <- rev_involutive.
        apply NoDup_rev. rewrite rev_app_distr. cbn [rev app].
        constructor; [|exact Hnd].
        rewrite <- in_rev. intros Hin.
        apply in_map_iff in Hin as (x & Hx & Hin).
        unfold ids_drawn in Hids. rewrite Forall_forall in Hids.
        specialize (Hids _ Hin). lia.
    + revert E. unfold post_todos. destruct (b_title b) as [ttl|]; [|auto].
      destruct (_ || _); [auto|]. unfold construct, save.
      destruct (validate _) as [t|err]; [|auto].
      destruct (db_up env); [|auto]. cbn. congruence.
  - unfold put_todo. destruct id as [text|oid]; [exact Hsame|].
    unfold findByIdAndUpdate.
    destruct (validate_update (updates_of b)) as [c|err]; [|exact Hsame].
    destruct (db_up env); [|exact Hsame].
    destruct (findById oid (docs d)) as [t|] eqn:Hf; [|exact Hsame].
    cbn [snd]. pose proof (findById_id _ _ _ Hf) as Hid.
    assert (Hm : map _id (replaceById oid (apply_update c t) (docs d))
                 = map _id (docs d))
      by (apply map_id_replaceById; exact Hid).
    split.
    + unfold ids_drawn in *. cbn [docs nextId].
      apply Forall_forall. intros x Hx.
      assert (Hin : In (_id x) (map _id (docs d)))
        by (rewrite <- Hm; now apply in_map).
      apply in_map_iff in Hin as (y & Hy & Hin).
      rewrite Forall_forall in Hids. rewrite <- Hy. now apply Hids.
    + cbn [docs]. now rewrite Hm.
  - unfold delete_todo. destruct id as [text|oid]; [exact Hsame|].
    unfold findByIdAndDelete. destruct (db_up env); [|exact Hsame].
    destruct (findById oid (docs d)) as [t|]; [|exact Hsame].
    cbn [snd]. split.
    + unfold ids_drawn in *. cbn [docs nextId]. now apply removeById_Forall.
    + cbn [docs]. now apply removeById_NoDup.
  - unfold delete_todos, deleteMany. destruct (db_up env); [|exact Hsame].
    cbn [snd]. split; [constructor|constructor].
Qed.

Lemma handle_keeps_store_ok_witness :
  store_ok (snd (handle (mkEnv 9000 true) (POST_todos empty_status_body)
                   sample_db)).
Proof.
  apply (handle_keeps_store_ok (mkEnv 9000 true) (POST_todos empty_status_body)
           sample_db).
  split.
  - unfold ids_drawn. simpl. repeat constructor; simpl; lia.
  - simpl. repeat constructor; simpl; intuition discriminate.
Defined.

(** Every handler keeps the stored tasks within the schema: a trimmed,
    non-empty title, and status, priority and category of their
    enumerated sets. *)
Theorem handle_keeps_schema (env : Env) (rq : Request) (d : Db) :
  all_schema_ok d -> all_schema_ok (snd (handle env rq d)).
Proof.
  unfold all_schema_ok. intros H.
  destruct rq as [b|id b|id|]; cbn [handle].
  - destruct (Z.eq_dec (code (fst (post_todos env b d))) 201) as [E|E].
    + destruct (post_created env b d E) as (t & -> & _ & _ & Hok).
      cbn [snd docs]. apply Forall_app. split; [exact H|now repeat constructor].
    + revert E. unfold post_todos. destruct (b_title b) as [ttl|]; [|auto].
      destruct (_ || _); [auto|]. unfold construct, save.
      destruct (validate _) as [t|err]; [|auto].
      destruct (db_up env); [|auto]. cbn. congruence.
  - unfold put_todo. destruct id as [text|oid]; [exact H|].
    unfold findByIdAndUpdate.
    destruct (validate_update (updates_of b)) as [c|err] eqn:Hv; [|exact H].
    destruct (db_up env); [|exact H].
    destruct (findById oid (docs d)) as [t|] eqn:Hf; [|exact H].
    cbn [snd docs]. apply replaceById_Forall; [|exact H].
    eapply apply_update_schema_ok; [exact Hv|].
    rewrite Forall_forall in H. apply H. now apply findById_In in Hf.
  - unfold delete_todo. destruct id as [text|oid]; [exact H|].
    unfold findByIdAndDelete. destruct (db_up env); [|exact H].
    destruct (findById oid (docs d)) as [t|]; [|exact H].
    cbn [snd docs]. now apply removeById_Forall.
  - unfold delete_todos, deleteMany. destruct (db_up env); [|exact H].
    constructor.
Qed.

Lemma handle_keeps_schema_witness :
  all_schema_ok (snd (handle (mkEnv 9000 true)
                        (PUT_todo (WellFormed 2%N) complete_update) sample_db)).
Proof.
  apply (handle_keeps_schema (mkEnv 9000 true)
           (PUT_todo (WellFormed 2%N) complete_update) sample_db).
  unfold all_schema_ok. simpl. repeat constructor.
Defined.

(** A request that is not answered in the 200 range leaves the stored
    tasks as they were. *)
Theorem failed_request_stores_nothing (env : Env) (rq : Request) (d : Db) :
  ok (fst (handle env rq d)) = false ->
  docs (snd (handle env rq d)) = docs d.
Proof.
  destruct rq as [b|id b|id|]; cbn [handle].
  - unfold post_todos. destruct (b_title b) as [ttl|]; [|reflexivity].
    destruct (_ || _); [reflexivity|]. unfold construct, save.
    destruct (validate _) as [t|err]; [|reflexivity].
    destruct (db_up env); [discriminate|reflexivity].
  - unfold put_todo. destruct id as [text|oid]; [reflexivity|].
    unfold findByIdAndUpdate.
    destruct (validate_update (updates_of b)) as [c|err]; [|reflexivity].
    destruct (db_up env); [|reflexivity].
    destruct (findById oid (docs d)); [discriminate|reflexivity].
  - unfold delete_todo. destruct id as [text|oid]; [reflexivity|].
    unfold findByIdAndDelete. destruct (db_up env); [|reflexivity].
    destruct (findById oid (docs d)); [discriminate|reflexivity].
  - unfold delete_todos, deleteMany.
    destruct (db_up env); [discriminate|reflexivity].
Qed.

Lemma failed_request_stores_nothing_witness :
  docs (snd (handle (mkEnv 9000 true)
               (PUT_todo (WellFormed 2%N) bogus_update) sample_db))
  = docs sample_db.
Proof.
  apply (failed_request_stores_nothing (mkEnv 9000 true)
           (PUT_todo (WellFormed 2%N) bogus_update) sample_db).
  reflexivity.
Defined.

(** A create request answered 201 has appended one task to the
    collection: the task of the answer, under an ObjectId no stored
    task has, created at the instant of the server clock, and within
    the schema. *)
Theorem created_task_is_fresh (env : Env) (b : Body) (d : Db) :
  ids_drawn d ->
  code (fst (post_todos env b d)) = 201 ->
  exists t,
    payload (fst (post_todos env b d)) = PTodo t
    /\ docs (snd (post_todos env b d)) = docs d ++ [t]
    /\ ~ In (_id t) (map _id (docs d))
    /\ createdAt t = now env
    /\ schema_ok t = true.
Proof.
  intros Hids E. destruct (post_created env b d E) as (t & -> & Hi & Hc & Hok).
  exists t. repeat split; auto.
  intros Hin. apply in_map_iff in Hin as (x & Hx & Hin).
  unfold ids_drawn in Hids. rewrite Forall_forall in Hids.
  specialize (Hids _ Hin). lia.
Qed.

Lemma created_task_is_fresh_witness :
  exists t,
    payload (fst (post_todos (mkEnv 9000 true) empty_status_body sample_db))
    = PTodo t
    /\ docs (snd (post_todos (mkEnv 9000 true) empty_status_body sample_db))
       = docs sample_db ++ [t]
    /\ ~ In (_id t) (map _id (docs sample_db))
    /\ createdAt t = now (mkEnv 9000 true)
    /\ schema_ok t = true.
Proof.
  apply (created_task_is_fresh (mkEnv 9000 true) empty_status_body sample_db).
  - unfold ids_drawn. simpl. repeat constructor; simpl; lia.
  - reflexivity.
Defined.

(** With distinct ObjectIds and the store up, a delete request for an
    id that is stored is answered 200 with the stored task and removes
    that task and no other; for an id that is not stored it is answered
    404 and the collection is as it was. *)
Theorem delete_todo_removes_exactly_that_task (env : Env) (id : ObjectId)
    (d : Db) :
  NoDup (map _id (docs d)) ->
  db_up env = true ->
  match findById id (docs d) with
  | Some t =>
      fst (delete_todo env (WellFormed id) d)
      = mkResponse 200 (PDeleted "Todo deleted successfully" t)
      /\ findById id (docs (snd (delete_todo env (WellFormed id) d))) = None
      /\ forall oid, oid <> id ->
           findById oid (docs (snd (delete_todo env (WellFormed id) d)))
           = findById oid (docs d)
  | None =>
      delete_todo env (WellFormed id) d = (fail 404 "Todo not found", d)
  end.
Proof.
  intros Hnd Hup. unfold delete_todo, findByIdAndDelete. rewrite Hup.
  destruct (findById id (docs d)) as [t|]; [|reflexivity].
  cbn [fst snd docs]. repeat split.
  - now apply findById_removeById_same.
  - intros oid Hne. now apply findById_removeById_other.
Qed.

Lemma delete_todo_removes_exactly_that_task_witness :
  match findById 2%N (docs sample_db) with
  | Some t =>
      fst (delete_todo (mkEnv 9000 true) (WellFormed 2%N) sample_db)
      = mkResponse 200 (PDeleted "Todo deleted successfully" t)
      /\ findById 2%N
           (docs (snd (delete_todo (mkEnv 9000 true) (WellFormed 2%N)
                         sample_db))) = None
      /\ forall oid, oid <> 2%N ->
           findById oid
             (docs (snd (delete_todo (mkEnv 9000 true) (WellFormed 2%N)
                           sample_db)))
           = findById oid (docs sample_db)
  | None =>
      delete_todo (mkEnv 9000 true) (WellFormed 2%N) sample_db
      = (fail 404 "Todo not found", sample_db)
  end.
Proof.
  apply (delete_todo_removes_exactly_that_task (mkEnv 9000 true) 2%N sample_db).
  - simpl. repeat constructor; simpl; intuition discriminate.
  - reflexivity.
Defined.

(** ** Listing *)

Lemma insert_newest_perm (t : Todo) (l : list Todo) :
  Permutation (insert_newest t l) (t :: l).
Proof.
  induction l as [|x l IH]; simpl; [reflexivity|].
  destruct (createdAt x <=? createdAt t); [reflexivity|].
  rewrite IH. apply perm_swap.
Qed.

Lemma insert_newest_sorted (t : Todo) (l : list Todo) :
  not_older_first l -> not_older_first (insert_newest t l).
Proof.
  unfold not_older_first. induction 1 as [|x l Hs IH Hx]; simpl.
  - repeat constructor.
  - destruct (Z.leb_spec (createdAt x) (createdAt t)) as [Hle|Hgt].
    + constructor; [now constructor|]. constructor; [lia|].
      eapply Forall_impl; [|exact Hx]. simpl. intros; lia.
    + constructor; [exact IH|].
      eapply Permutation_Forall; [symmetry; apply insert_newest_perm|].
      constructor; [lia|exact Hx].
Qed.

Lemma find_newest_first_perm (l : list Todo) :
  Permutation (find_newest_first l) l.
Proof.
  induction l as [|t l IH]; simpl; [reflexivity|].
  now rewrite insert_newest_perm, IH.
Qed.

Lemma find_newest_first_sorted (l : list Todo) :
  not_older_first (find_newest_first l).
Proof.
  induction l as [|t l IH]; simpl; [constructor|].
  now apply insert_newest_sorted.
Qed.

(** The list request answers 200 with all stored tasks, none twice,
    newest first, when the store is up, and 500 when it is not. *)
Theorem get_todos_lists_all_newest_first (env : Env) (d : Db) :
  if db_up env then
    exists l, get_todos env d = (200, LTodos l)
              /\ Permutation l (docs d) /\ not_older_first l
  else get_todos env d = (500, LError "Failed to fetch todos").
Proof.
  unfold get_todos. destruct (db_up env); [|reflexivity].
  eexists. split; [reflexivity|]. split.
  - apply find_newest_first_perm.
  - apply find_newest_first_sorted.
Qed.

(* ================================================================== *)
(** * Further facts about the client                                    *)
(* ================================================================== *)

(** ** Loading *)

Lemma not_older_first_strict (l : list Todo) :
  not_older_first l -> NoDup (map createdAt l) ->
  strictly_ascending (fun t => - createdAt t) l.
Proof.
  intros Hs Hnd. apply ascending_strict.
  - clear Hnd. unfold ascending, not_older_first in *.
    induction Hs as [|a l' Hs IH Ha]; [constructor|].
    constructor; [exact IH|].
    eapply Forall_impl; [|exact Ha]. simpl. intros; lia.
  - rewrite <- (map_map createdAt Z.opp).
    apply Finite.Injective_map_NoDup; [|exact Hnd]. intros a b Hab. lia.
Qed.

(** [fetchTodos]: when the request succeeds the cache becomes the
    server's list, all stored tasks newest first, and nothing is
    raised; when it fails the cache is emptied and an error toast is
    raised.  The collection and the undo slot are left alone. *)
Theorem fetchTodos_mirrors_or_empties (n : Net) (w : World) :
  (if request_succeeds n then
     Permutation (todos (st (fetchTodos n w))) (docs (db w))
     /\ not_older_first (todos (st (fetchTodos n w)))
     /\ shown (fetchTodos n w) = shown w
   else
     todos (st (fetchTodos n w)) = []
     /\ shown (fetchTodos n w) = shown w ++ [Toast "Failed to load tasks" "error"])
  /\ db (fetchTodos n w) = db w
  /\ deletedTodo (st (fetchTodos n w)) = deletedTodo (st w).
Proof.
  unfold fetchTodos, request_succeeds, get_todos.
  destruct (net_up n), (db_up (srv n)); cbn; repeat split;
    auto using find_newest_first_perm, find_newest_first_sorted.
Qed.

(** After a successful load from a collection with pairwise distinct
    [createdAt], the default view (all, no search, newest) is the cache
    as it was loaded. *)
Theorem loaded_cache_is_its_default_view (e : Js.engine) (n : Net) (w : World) :
  request_succeeds n = true ->
  NoDup (map createdAt (docs (db w))) ->
  view e (todos (st (fetchTodos n w))) "all" "" "newest"
  = todos (st (fetchTodos n w)).
Proof.
  intros Hn Hnd.
  pose proof (fetchTodos_mirrors_or_empties n w) as [H _].
  rewrite Hn in H. destruct H as (Hp & Hs & _).
  set (cache := todos (st (fetchTodos n w))) in *.
  assert (Hc : NoDup (map createdAt cache)).
  { eapply Permutation_NoDup; [|exact Hnd].
    apply Permutation_map. now symmetry. }
  rewrite view_newest_all.
  apply strictly_ascending_unique with (key := fun t => - createdAt t).
  - now apply sort_newest_strict.
  - now apply not_older_first_strict.
  - apply sort_perm.
Qed.

Lemma loaded_cache_is_its_default_view_witness :
  view Js.ItemFirst (todos (st (fetchTodos online sample_world)))
    "all" "" "newest"
  = todos (st (fetchTodos online sample_world)).
Proof.
  apply (loaded_cache_is_its_default_view Js.ItemFirst online sample_world).
  - reflexivity.
  - simpl. repeat constructor; simpl; intuition lia.
Defined.

(** ** Updating *)

(** An update request answered in the 200 range found the task, passed
    the validators, and stored and returned the updated task. *)
Lemma put_ok_inv (env : Env) (id : ObjectId) (b : Body) (d : Db) :
  ok (fst (put_todo env (WellFormed id) b d)) = true ->
  exists t0 c,
    findById id (docs d) = Some t0
    /\ validate_update (updates_of b) = Ok c
    /\ put_todo env (WellFormed id) b d
       = (mkResponse 200 (PTodo (apply_update c t0)),
          mkDb (replaceById id (apply_update c t0) (docs d)) (nextId d)).
Proof.
  unfold put_todo, findByIdAndUpdate.
  destruct (validate_update (updates_of b)) as [c|err]; [|discriminate].
  destruct (db_up env); [|discriminate].
  destruct (findById id (docs d)) as [t0|]; [|discriminate].
  intros _. now exists t0, c.
Qed.

(** A successful [updateTodo] leaves the cache in step with the store:
    the task it returns is the stored task of that id, it replaces the
    cached task of that id in place, and a cache without that id is
    left as it was. *)
Theorem updateTodo_syncs_cache (n : Net) (id : ObjectId) (b : Body)
    (w : World) (t' : Todo) :
  fst (updateTodo n id b w) = Ok t' ->
  _id t' = id
  /\ findById id (docs (db (snd (updateTodo n id b w)))) = Some t'
  /\ todos (st (snd (updateTodo n id b w)))
     = replaceById id t' (todos (st w))
  /\ List.length (todos (st (snd (updateTodo n id b w))))
     = List.length (todos (st w))
  /\ (forall t, findById id (todos (st w)) = Some t ->
        findById id (todos (st (snd (updateTodo n id b w)))) = Some t')
  /\ (findById id (todos (st w)) = None ->
        todos (st (snd (updateTodo n id b w))) = todos (st w)).
Proof.
  unfold updateTodo, apiRequest. destruct (net_up n); [|discriminate].
  cbn [handle].
  destruct (ok (fst (put_todo (srv n) (WellFormed id) b (db w)))) eqn:Hok.
  - destruct (put_ok_inv _ _ _ _ Hok) as (t0 & c & Hf & _ & ->).
    cbn [ok code payload as_todo fst snd st db with_st set_todos todos docs].
    replace ((200 <=? 200) && (200 <=? 299)) with true by reflexivity.
    cbn [fst snd st db with_st set_todos todos docs].
    intros H. inversion H; subst t'. clear H.
    pose proof (findById_id _ _ _ Hf) as Hid.
    assert (Hid' : _id (apply_update c t0) = id) by exact Hid.
    repeat split.
    + exact Hid'.
    + now apply (findById_replace_same id (docs (db w)) t0).
    + apply replaceById_length.
    + intros t Ht. now apply (findById_replace_same id _ t).
    + intros Hnone. now apply replaceById_absent.
  - destruct (put_todo (srv n) (WellFormed id) b (db w)) as [r d'].
    cbn [fst] in Hok. rewrite Hok. discriminate.
Qed.

Lemma updateTodo_syncs_cache_witness :
  _id (apply_update (mkCast None (Some "completed") None None None) report)
  = 2%N
  /\ findById 2%N
       (docs (db (snd (updateTodo online 2%N complete_update sample_world))))
     = Some (apply_update (mkCast None (Some "completed") None None None) report)
  /\ todos (st (snd (updateTodo online 2%N complete_update sample_world)))
     = replaceById 2%N
         (apply_update (mkCast None (Some "completed") None None None) report)
         (todos (st sample_world))
  /\ List.length (todos (st (snd (updateTodo online 2%N complete_update
                                    sample_world))))
     = List.length (todos (st sample_world))
  /\ (forall t, findById 2%N (todos (st sample_world)) = Some t ->
        findById 2%N
          (todos (st (snd (updateTodo online 2%N complete_update sample_world))))
        = Some (apply_update (mkCast None (Some "completed") None None None)
                  report))
  /\ (findById 2%N (todos (st sample_world)) = None ->
        todos (st (snd (updateTodo online 2%N complete_update sample_world)))
        = todos (st sample_world)).
Proof.
  apply (updateTodo_syncs_cache online 2%N complete_update sample_world
           (apply_update (mkCast None (Some "completed") None None None) report)).
  reflexivity.
Defined.

(** ** Deleting and clearing *)

Lemma removeById_length (id : ObjectId) (l : list Todo) (t : Todo) :
  findById id l = Some t ->
  S (List.length (removeById id l)) = List.length l.
Proof.
  induction l as [|y l IH]; simpl; [discriminate|].
  destruct (N.eqb (_id y) id); [reflexivity|].
  intros H. simpl. now rewrite IH.
Qed.

(** A successful delete of a cached task that the server holds takes
    the task out of the cache and out of the collection, and puts the
    cached task in the undo slot, whatever the slot held before. *)
Theorem deleteTodo_removes_from_cache_and_store (n : Net) (w : World)
    (t : Todo) :
  request_succeeds n = true ->
  In t (todos (st w)) ->
  NoDup (map _id (todos (st w))) ->
  NoDup (map _id (docs (db w))) ->
  findById (_id t) (docs (db w)) <> None ->
  findById (_id t) (todos (st (handleDeleteTodo n (_id t) w))) = None
  /\ findById (_id t) (docs (db (handleDeleteTodo n (_id t) w))) = None
  /\ deletedTodo (st (handleDeleteTodo n (_id t) w)) = Some t
  /\ S (List.length (todos (st (handleDeleteTodo n (_id t) w))))
     = List.length (todos (st w))
  /\ shown (handleDeleteTodo n (_id t) w)
     = shown w ++ [UndoSnackbar "Task deleted"].
Proof.
  intros Hn Hin Hc Hd Hsrv.
  destruct (findById (_id t) (docs (db w))) as [t0|] eqn:Hf; [|contradiction].
  pose proof (findById_NoDup _ _ Hc Hin) as Hcache.
  unfold handleDeleteTodo.
  rewrite (deleteTodo_found n w t t0 Hn Hcache Hf).
  cbn [snd st db shown todos deletedTodo docs set_undoTimeout set_todos
       set_deletedTodo].
  repeat split.
  - now apply findById_removeById_same.
  - now apply findById_removeById_same.
  - now apply (removeById_length _ _ t).
Qed.

Lemma deleteTodo_removes_from_cache_and_store_witness :
  findById (_id milk)
    (todos (st (handleDeleteTodo online (_id milk) sample_world))) = None
  /\ findById (_id milk)
       (docs (db (handleDeleteTodo online (_id milk) sample_world))) = None
  /\ deletedTodo (st (handleDeleteTodo online (_id milk) sample_world))
     = Some milk
  /\ S (List.length
          (todos (st (handleDeleteTodo online (_id milk) sample_world))))
     = List.length (todos (st sample_world))
  /\ shown (handleDeleteTodo online (_id milk) sample_world)
     = shown sample_world ++ [UndoSnackbar "Task deleted"].
Proof.
  apply (deleteTodo_removes_from_cache_and_store online sample_world milk).
  - reflexivity.
  - simpl. right. right. left. reflexivity.
  - simpl. repeat constructor; simpl; intuition discriminate.
  - simpl. repeat constructor; simpl; intuition discriminate.
  - discriminate.
Defined.

(** A successful clear-all empties the cache and the collection; it
    leaves the undo slot as it was, and draws no ObjectId. *)
Theorem clearAllTodos_empties_cache_and_store (n : Net) (w : World) :
  request_succeeds n = true ->
  fst (clearAllTodos n w) = Ok tt
  /\ todos (st (snd (clearAllTodos n w))) = []
  /\ docs (db (snd (clearAllTodos n w))) = []
  /\ nextId (db (snd (clearAllTodos n w))) = nextId (db w)
  /\ deletedTodo (st (snd (clearAllTodos n w))) = deletedTodo (st w)
  /\ shown (snd (clearAllTodos n w))
     = shown w ++ [Toast "All tasks cleared!" "success"].
Proof.
  intros Hn. apply andb_true_iff in Hn as [Hn Hd].
  unfold clearAllTodos, apiRequest. rewrite Hn. cbn [handle].
  unfold delete_todos, deleteMany. rewrite Hd. cbn. now repeat split.
Qed.

Lemma clearAllTodos_empties_cache_and_store_witness :
  fst (clearAllTodos online sample_world) = Ok tt
  /\ todos (st (snd (clearAllTodos online sample_world))) = []
  /\ docs (db (snd (clearAllTodos online sample_world))) = []
  /\ nextId (db (snd (clearAllTodos online sample_world)))
     = nextId (db sample_world)
  /\ deletedTodo (st (snd (clearAllTodos online sample_world)))
     = deletedTodo (st sample_world)
  /\ shown (snd (clearAllTodos online sample_world))
     = shown sample_world ++ [Toast "All tasks cleared!" "success"].
Proof.
  apply (clearAllTodos_empties_cache_and_store online sample_world).
  reflexivity.
Defined.

(** ** The undo window *)

(** Once the undo window of a successful delete has elapsed (the
    snackbar timer has fired, then the timer that empties the slot),
    undo sends no request and changes nothing. *)
Theorem undo_after_window_does_nothing (n1 n2 : Net) (w : World) (t : Todo) :
  request_succeeds n1 = true ->
  In t (todos (st w)) ->
  NoDup (map _id (todos (st w))) ->
  findById (_id t) (docs (db w)) <> None ->
  let elapsed :=
    slotClearFires (undoTimeoutFires (handleDeleteTodo n1 (_id t) w)) in
  deletedTodo (st elapsed) = None /\ handleUndo n2 elapsed = elapsed.
Proof.
  intros Hn Hin Hc Hsrv.
  destruct (findById (_id t) (docs (db w))) as [t0|] eqn:Hf; [|contradiction].
  pose proof (findById_NoDup _ _ Hc Hin) as Hcache.
  unfold handleDeleteTodo.
  rewrite (deleteTodo_found n1 w t t0 Hn Hcache Hf). cbn [snd].
  cbv zeta. split; reflexivity.
Qed.

Lemma undo_after_window_does_nothing_witness :
  let elapsed :=
    slotClearFires
      (undoTimeoutFires (handleDeleteTodo online (_id milk) sample_world)) in
  deletedTodo (st elapsed) = None /\ handleUndo online elapsed = elapsed.
Proof.
  apply (undo_after_window_does_nothing online online sample_world milk).
  - reflexivity.
  - simpl. right. right. left. reflexivity.
  - simpl. repeat constructor; simpl; intuition discriminate.
  - discriminate.
Defined.

(** A timer left by an earlier [hideUndoSnackbar] empties the slot of a
    later delete: with such a timer pending, after a successful delete
    and the firing of that timer the slot is empty and undo does
    nothing, while the snackbar of the delete is still up. *)
Theorem pending_slot_timer_empties_later_slot (n1 n2 : Net) (w : World)
    (t : Todo) :
  (0 < slotClears (st w))%nat ->
  request_succeeds n1 = true ->
  In t (todos (st w)) ->
  NoDup (map _id (todos (st w))) ->
  findById (_id t) (docs (db w)) <> None ->
  let w1 := slotClearFires (handleDeleteTodo n1 (_id t) w) in
  deletedTodo (st w1) = None
  /\ undoTimeout (st w1) = true
  /\ handleUndo n2 w1 = w1.
Proof.
  intros Hk Hn Hin Hc Hsrv.
  destruct (findById (_id t) (docs (db w))) as [t0|] eqn:Hf; [|contradiction].
  pose proof (findById_NoDup _ _ Hc Hin) as Hcache.
  unfold handleDeleteTodo.
  rewrite (deleteTodo_found n1 w t t0 Hn Hcache Hf). cbn [snd].
  cbv zeta. unfold slotClearFires.
  cbn [st slotClears set_undoTimeout set_todos set_deletedTodo].
  destruct (slotClears (st w)) as [|k]; [lia|]. now repeat split.
Qed.

Lemma pending_slot_timer_empties_later_slot_witness :
  let w0 := delete_then_undo online online milk sample_world in
  let w1 := slotClearFires (handleDeleteTodo online (_id gym) w0) in
  deletedTodo (st w1) = None
  /\ undoTimeout (st w1) = true
  /\ handleUndo online w1 = w1.
Proof.
  apply (pending_slot_timer_empties_later_slot online online
           (delete_then_undo online online milk sample_world) gym).
  - vm_compute. lia.
  - reflexivity.
  - simpl. right. left. reflexivity.
  - simpl. repeat constructor; simpl; intuition discriminate.
  - discriminate.
Defined.

(** ** Adding *)

Lemma post_title_guard_passes (ttl : string) :
  Js.truthy (Js.trim ttl) = true ->
  negb (Js.truthy (Js.trim ttl)) || String.eqb (Js.trim (Js.trim ttl)) ""
  = false.
Proof.
  intros H. rewrite trim_idem, H. simpl.
  destruct (Js.trim ttl); [discriminate|reflexivity].
Qed.

(** The guard of the add form and the guard of the server agree: a
    blank input raises a toast and sends nothing, and any other input
    sends one create request, which the server does not answer with
    400. *)
Theorem handleAddTodo_guard (n : Net) (f : Form) (w : World) :
  if blank_title (Some (todoInput f)) then
    handleAddTodo n f w
    = (showToast "Please enter a task title" "error" w, f)
  else
    sent (fst (handleAddTodo n f w))
    = sent w ++ [POST_todos (todoData_of_form f)]
    /\ forall env d, code (fst (post_todos env (todoData_of_form f) d)) <> 400.
Proof.
  unfold handleAddTodo.
  destruct (blank_title (Some (todoInput f))) eqn:Hb.
  - cbn [blank_title] in Hb. now rewrite (trim_blank _ Hb).
  - assert (Ht : Js.truthy (Js.trim (todoInput f)) = true).
    { destruct (Js.truthy (Js.trim (todoInput f))) eqn:E; [reflexivity|].
      apply truthy_false, trim_empty_iff in E. cbn [blank_title] in Hb.
      congruence. }
    rewrite Ht. cbn [negb]. split.
    + destruct (apiRequest_frame n (POST_todos (todoData_of_form f)) w)
        as (_ & _ & Hsent).
      unfold createTodo.
      destruct (apiRequest n (POST_todos (todoData_of_form f)) w)
        as [[p|[]] w1]; cbn [snd] in Hsent;
        [destruct (as_todo p)|]; exact Hsent.
    + intros env d. unfold post_todos, todoData_of_form. cbn [b_title].
      rewrite (post_title_guard_passes _ Ht). unfold construct, save.
      destruct (validate _) as [t|err]; [|discriminate].
      destruct (db_up env); discriminate.
Qed.

(** Adding from a form with a non-blank title and values the selects
    offer, when the request succeeds, puts at the head of the cache,
    and in the collection, a task with the trimmed title, status
    'todo', the chosen priority, category and due date, and resets the
    form. *)
Theorem handleAddTodo_adds_the_task (n : Net) (f : Form) (w : World) :
  blank_title (Some (todoInput f)) = false ->
  form_ok f = true ->
  request_succeeds n = true ->
  exists t,
    todos (st (fst (handleAddTodo n f w))) = t :: todos (st w)
    /\ docs (db (fst (handleAddTodo n f w))) = docs (db w) ++ [t]
    /\ title t = Js.trim (todoInput f)
    /\ status t = "todo"
    /\ priority t = prioritySelect f
    /\ category t = categorySelect f
    /\ dueDate t = due_of_form (dueDateInput f)
    /\ snd (handleAddTodo n f w) = resetForm.
Proof.
  intros Hb Hf Hn.
  assert (Ht : Js.truthy (Js.trim (todoInput f)) = true).
  { destruct (Js.truthy (Js.trim (todoInput f))) eqn:E; [reflexivity|].
    apply truthy_false, trim_empty_iff in E. cbn [blank_title] in Hb.
    congruence. }
  unfold form_ok in Hf. rewrite !andb_true_iff in Hf.
  destruct Hf as ((Hp & Hc) & Hd).
  set (t0 := mkTodo 0%N (Js.trim (todoInput f)) "todo" (prioritySelect f)
               (categorySelect f) (due_of_form (dueDateInput f)) 0).
  assert (Hok : schema_ok t0 = true).
  { unfold schema_ok, t0. cbn [title status priority category].
    now rewrite trim_idem, String.eqb_refl, Ht, Hp, Hc. }
  assert (Hdata : todoData_of_form f = todoData_of t0).
  { unfold todoData_of_form, todoData_of, t0.
    cbn [title status priority category dueDate]. repeat f_equal.
    destruct (dueDateInput f); try reflexivity. discriminate Hd. }
  unfold handleAddTodo. rewrite Ht. cbn [negb]. rewrite Hdata.
  rewrite (createTodo_of n w t0 Hn Hok). cbn [fst snd].
  eexists. split; [reflexivity|]. now repeat split.
Qed.

Lemma handleAddTodo_adds_the_task_witness :
  exists t,
    todos (st (fst (handleAddTodo online sample_form sample_world)))
    = t :: todos (st sample_world)
    /\ docs (db (fst (handleAddTodo online sample_form sample_world)))
       = docs (db sample_world) ++ [t]
    /\ title t = Js.trim (todoInput sample_form)
    /\ status t = "todo"
    /\ priority t = prioritySelect sample_form
    /\ category t = categorySelect sample_form
    /\ dueDate t = due_of_form (dueDateInput sample_form)
    /\ snd (handleAddTodo online sample_form sample_world) = resetForm.
Proof.
  apply (handleAddTodo_adds_the_task online sample_form sample_world);
    reflexivity.
Defined.

(** ** Changing the status and the title *)

(** On the statuses of the enumerated set, the status cycle stays
    within the set, moves to another status, and comes back after three
    steps. *)
Theorem statusCycle_goes_round (s : string) :
  in_enum status_enum s = true ->
  exists s1 s2,
    statusCycle s = Some s1 /\ statusCycle s1 = Some s2
    /\ statusCycle s2 = Some s
    /\ in_enum status_enum s1 = true /\ in_enum status_enum s2 = true
    /\ s1 <> s.
Proof.
  unfold in_enum, status_enum. cbn [existsb].
  rewrite !orb_true_iff, !String.eqb_eq.
  intros [->|[->|[->|H]]]; [| | |discriminate H].
  - exists "progress", "completed".
    repeat (split; [reflexivity|]). discriminate.
  - exists "completed", "todo".
    repeat (split; [reflexivity|]). discriminate.
  - exists "todo", "progress".
    repeat (split; [reflexivity|]). discriminate.
Qed.

Lemma statusCycle_goes_round_witness :
  exists s1 s2,
    statusCycle "progress" = Some s1 /\ statusCycle s1 = Some s2
    /\ statusCycle s2 = Some "progress"
    /\ in_enum status_enum s1 = true /\ in_enum status_enum s2 = true
    /\ s1 <> "progress".
Proof.
  apply (statusCycle_goes_round "progress"). reflexivity.
Defined.

(** What a status-only update that passed the validators is. *)
Lemma validate_status_update (s : string) :
  in_enum status_enum s = true ->
  validate_update (updates_of (status_body (Some s)))
  = Ok (mkCast None (Some s) None None None).
Proof.
  intros H. unfold validate_update, updates_of, status_body, bind, check_opt,
    bind, check_enum.
  cbn [b_title b_status b_priority b_category b_dueDate u_title u_status
       u_priority u_category u_dueDate option_map].
  now rewrite H.
Qed.

(** A successful status change to a status of the enumerated set stores
    that status on the task and changes no other field; the cached
    task of that id is replaced by the stored one, and the toast says
    which change it was. *)
Theorem handleStatusChange_sets_the_status (n : Net) (id : ObjectId)
    (s : string) (w : World) (t0 : Todo) :
  request_succeeds n = true ->
  in_enum status_enum s = true ->
  findById id (docs (db w)) = Some t0 ->
  let t' := mkTodo (_id t0) (title t0) s (priority t0) (category t0)
              (dueDate t0) (createdAt t0) in
  let w' := handleStatusChange n id (Some s) w in
  findById id (docs (db w')) = Some t'
  /\ todos (st w') = replaceById id t' (todos (st w))
  /\ shown w'
     = shown w ++ [Toast (if String.eqb s "completed"
                          then "Task completed!" else "Status updated!")
                         "success"].
Proof.
  intros Hn Hs Hf. apply andb_true_iff in Hn as [Hn Hd]. cbv zeta.
  assert (Hput : put_todo (srv n) (WellFormed id) (status_body (Some s)) (db w)
                 = (mkResponse 200 (PTodo (apply_update
                      (mkCast None (Some s) None None None) t0)),
                    mkDb (replaceById id (apply_update
                      (mkCast None (Some s) None None None) t0) (docs (db w)))
                      (nextId (db w)))).
  { unfold put_todo, findByIdAndUpdate.
    now rewrite (validate_status_update s Hs), Hd, Hf. }
  unfold handleStatusChange, updateTodo.
  rewrite (apiRequest_ok n (PUT_todo (WellFormed id) (status_body (Some s))) w
             _ _ Hn Hput eq_refl).
  cbn [payload as_todo]. unfold apply_update.
  cbn [c_title c_status c_priority c_category c_dueDate set_path].
  destruct (String.eqb s "completed");
    cbn [showToast notify with_st st db sent shown docs todos set_todos];
    (split; [|split; reflexivity]);
    apply (findById_replace_same id (docs (db w)) t0); auto;
    cbn [_id]; now apply findById_id in Hf.
Qed.

Lemma handleStatusChange_sets_the_status_witness :
  let t' := mkTodo (_id report) (title report) "completed" (priority report)
              (category report) (dueDate report) (createdAt report) in
  let w' := handleStatusChange online 2%N (Some "completed") sample_world in
  findById 2%N (docs (db w')) = Some t'
  /\ todos (st w') = replaceById 2%N t' (todos (st sample_world))
  /\ shown w'
     = shown sample_world
       ++ [Toast (if String.eqb "completed" "completed"
                  then "Task completed!" else "Status updated!") "success"].
Proof.
  apply (handleStatusChange_sets_the_status online 2%N "completed"
           sample_world report); reflexivity.
Defined.

(** Saving an edit: a blank text raises a toast and sends nothing; any
    other text, when the request succeeds on a stored task, stores the
    trimmed text as the title and changes no other field. *)
Theorem saveEdit_sets_the_trimmed_title (n : Net) (id : ObjectId)
    (value : string) (w : World) (t0 : Todo) :
  request_succeeds n = true ->
  findById id (docs (db w)) = Some t0 ->
  if blank_title (Some value) then
    saveEdit n id value w = showToast "Title cannot be empty" "error" w
  else
    findById id (docs (db (saveEdit n id value w)))
    = Some (mkTodo (_id t0) (Js.trim value) (status t0) (priority t0)
              (category t0) (dueDate t0) (createdAt t0))
    /\ shown (saveEdit n id value w)
       = shown w ++ [Toast "Task updated!" "success"].
Proof.
  intros Hn Hf. apply andb_true_iff in Hn as [Hn Hd]. unfold saveEdit.
  destruct (blank_title (Some value)) eqn:Hb.
  - cbn [blank_title] in Hb. now rewrite (trim_blank _ Hb).
  - assert (Ht : Js.truthy (Js.trim value) = true).
    { destruct (Js.truthy (Js.trim value)) eqn:E; [reflexivity|].
      apply truthy_false, trim_empty_iff in E. cbn [blank_title] in Hb.
      congruence. }
    rewrite Ht. cbn [negb].
    assert (Hv : validate_update (updates_of (title_body (Js.trim value)))
                 = Ok (mkCast (Some (Js.trim value)) None None None None)).
    { unfold validate_update, updates_of, title_body, bind, check_opt, bind,
        check_required.
      cbn [b_title b_status b_priority b_category b_dueDate u_title u_status
           u_priority u_category u_dueDate option_map].
      now rewrite !trim_idem, Ht. }
    assert (Hput : put_todo (srv n) (WellFormed id)
                     (title_body (Js.trim value)) (db w)
                   = (mkResponse 200 (PTodo (apply_update
                        (mkCast (Some (Js.trim value)) None None None None) t0)),
                      mkDb (replaceById id (apply_update
                        (mkCast (Some (Js.trim value)) None None None None) t0)
                        (docs (db w))) (nextId (db w)))).
    { unfold put_todo, findByIdAndUpdate. now rewrite Hv, Hd, Hf. }
    unfold updateTodo.
    rewrite (apiRequest_ok n
               (PUT_todo (WellFormed id) (title_body (Js.trim value))) w
               _ _ Hn Hput eq_refl).
    cbn [payload as_todo]. unfold apply_update.
    cbn [c_title c_status c_priority c_category c_dueDate set_path].
    cbn [showToast notify with_st st db sent shown docs todos set_todos].
    split; [|reflexivity].
    apply (findById_replace_same id (docs (db w)) t0); auto.
    cbn [_id]. now apply findById_id in Hf.
Qed.

Lemma saveEdit_sets_the_trimmed_title_witness :
  if blank_title (Some " Buy oat milk ") then
    saveEdit online 1%N " Buy oat milk " sample_world
    = showToast "Title cannot be empty" "error" sample_world
  else
    findById 1%N (docs (db (saveEdit online 1%N " Buy oat milk " sample_world)))
    = Some (mkTodo (_id milk) (Js.trim " Buy oat milk ") (status milk)
              (priority milk) (category milk) (dueDate milk) (createdAt milk))
    /\ shown (saveEdit online 1%N " Buy oat milk " sample_world)
       = shown sample_world ++ [Toast "Task updated!" "success"].
Proof.
  apply (saveEdit_sets_the_trimmed_title online 1%N " Buy oat milk "
           sample_world milk); reflexivity.
Defined.

(** ** Importing and exporting *)

(** One [createTodo]: the request is sent, and the cache grows by one
    task exactly when the call returns. *)
Lemma createTodo_effect (n : Net) (b : Body) (w : World) :
  sent (snd (createTodo n b w)) = sent w ++ [POST_todos b]
  /\ match fst (createTodo n b w) with
     | Ok _ =>
         List.length (todos (st (snd (createTodo n b w))))
         = S (List.length (todos (st w)))
     | Err _ => todos (st (snd (createTodo n b w))) = todos (st w)
     end.
Proof.
  destruct (apiRequest_frame n (POST_todos b) w) as (Hst & _ & Hsent).
  unfold createTodo.
  destruct (apiRequest n (POST_todos b) w) as [[p|[]] w1]; cbn [snd] in *.
  - destruct (as_todo p); cbn; rewrite Hst; auto.
  - cbn. rewrite Hst. auto.
Qed.

Lemma importLoop_counts (net_at : nat -> Net) (items : list Body) :
  forall k s e w,
    let r := importLoop net_at k items s e w in
    (fst (fst r) + snd (fst r) = s + e + List.length items)%nat
    /\ (s <= fst (fst r))%nat /\ (e <= snd (fst r))%nat
    /\ (List.length (todos (st (snd r)))
        = List.length (todos (st w)) + (fst (fst r) - s))%nat
    /\ (List.length (sent (snd r))
        = List.length (sent w) + List.length items)%nat.
Proof.
  induction items as [|item items IH]; intros k s e w; cbn [importLoop].
  - cbn. repeat split; lia.
  - destruct (createTodo_effect (net_at k) (todoData_of_item item) w)
      as [Hsent Hcache].
    destruct (createTodo (net_at k) (todoData_of_item item) w) as [[[]|[]] w1];
      cbn [fst snd] in *.
    + specialize (IH (S k) (S s) e w1). cbv zeta in *.
      destruct IH as (H1 & H2 & H3 & H4 & H5).
      rewrite Hsent, length_app in H5. cbn [List.length] in *.
      repeat split; lia.
    + specialize (IH (S k) s (S e) w1). cbv zeta in *.
      destruct IH as (H1 & H2 & H3 & H4 & H5).
      rewrite Hsent, length_app in H5. rewrite Hcache in H4.
      cbn [List.length] in *. repeat split; lia.
Qed.

(** An import sends one create request per element, whatever fails on
    the way; the elements split into those that succeeded and those
    that failed, the cache grows by the number that succeeded, and each
    non-zero count is reported in a toast. *)
Theorem importTodos_counts (net_at : nat -> Net) (items : list Body)
    (w : World) :
  exists successCount errorCount : nat,
    (successCount + errorCount = List.length items)%nat
    /\ (List.length (todos (st (importTodos net_at items w)))
        = List.length (todos (st w)) + successCount)%nat
    /\ (List.length (sent (importTodos net_at items w))
        = List.length (sent w) + List.length items)%nat
    /\ ((0 < successCount)%nat ->
          In (Toast ("Imported " ++ decimal successCount ++ " tasks!")%string
                    "success")
             (shown (importTodos net_at items w)))
    /\ ((0 < errorCount)%nat ->
          In (Toast ("Failed to import " ++ decimal errorCount ++ " tasks")%string
                    "error")
             (shown (importTodos net_at items w))).
Proof.
  pose proof (importLoop_counts net_at items 0 0 0 w) as H. cbv zeta in H.
  unfold importTodos.
  destruct (importLoop net_at 0 items 0 0 w) as [[s e] w1]. cbn [fst snd] in H.
  destruct H as (H1 & _ & _ & H4 & H5).
  exists s, e. unfold showToast, notify.
  destruct (Nat.ltb_spec 0 s), (Nat.ltb_spec 0 e); cbn [st sent shown];
    repeat split; try lia;
    intros _; rewrite ?in_app_iff; cbn [In]; auto.
Qed.

Lemma todoData_of_item_of (t : Todo) :
  schema_ok t = true -> todoData_of_item (item_of t) = todoData_of t.
Proof.
  unfold schema_ok. rewrite !andb_true_iff.
  intros ((((_ & _) & Hs) & Hp) & Hc).
  unfold todoData_of_item, item_of, todoData_of.
  cbn [b_title b_status b_priority b_category b_dueDate].
  rewrite !or_default_truthy
    by auto using status_truthy, priority_truthy, category_truthy.
  now destruct (dueDate t).
Qed.

Lemma importLoop_recreates (net_at : nat -> Net) (l : list Todo) :
  all_succeed net_at ->
  Forall (fun t => schema_ok t = true) l ->
  forall k s e w,
    exists w',
      importLoop net_at k (map item_of l) s e w
      = ((s + List.length l)%nat, e, w')
      /\ map content (todos (st w'))
         = rev (map content l) ++ map content (todos (st w)).
Proof.
  intros Hnet. induction 1 as [|t l Ht Hl IH]; intros k s e w.
  - exists w. cbn. split; [now rewrite Nat.add_0_r|reflexivity].
  - cbn [map importLoop]. rewrite (todoData_of_item_of t Ht).
    rewrite (createTodo_of (net_at k) w t (Hnet k) Ht).
    destruct (IH (S k) (S s) e
                (mkWorld
                   (set_todos (recreated (srv (net_at k)) (db w) t
                               :: todos (st w)) (st w))
                   (mkDb (docs (db w) ++ [recreated (srv (net_at k)) (db w) t])
                         (N.succ (nextId (db w))))
                   (sent w ++ [POST_todos (todoData_of t)])
                   (shown w ++ [Toast "Task added successfully!" "success"])))
      as (w' & Hloop & Hcontent).
    exists w'. split.
    + rewrite Hloop. cbn [List.length].
      now replace (s + S (List.length l))%nat with (S s + List.length l)%nat
        by lia.
    + rewrite Hcontent. cbn [st todos set_todos map rev].
      now rewrite <- app_assoc.
Qed.

(** Importing a backup as [handleExport] writes it: when the exported
    tasks meet the schema and every request succeeds, the backup passes
    the format check and each of its tasks is re-created, content
    unchanged, at the head of the cache, the last of the backup
    first. *)
Theorem import_of_export_recreates (net_at : nat -> Net) (w0 w : World)
    (l : list Todo) :
  fst (handleExport w0) = Some l ->
  Forall (fun t => schema_ok t = true) l ->
  all_succeed net_at ->
  l = todos (st w0)
  /\ isValidFormat (map item_of l) = true
  /\ map content (todos (st (importTodos net_at (map item_of l) w)))
     = rev (map content l) ++ map content (todos (st w)).
Proof.
  intros Hex Hok Hnet. split; [|split].
  - unfold handleExport in Hex. destruct (todos (st w0)); [discriminate|].
    now inversion Hex.
  - unfold isValidFormat. rewrite forallb_forall. intros item Hin.
    apply in_map_iff in Hin as (t & <- & Hin). cbn [item_of b_title].
    rewrite Forall_forall in Hok. specialize (Hok _ Hin).
    unfold schema_ok in Hok. rewrite !andb_true_iff in Hok. tauto.
  - destruct (importLoop_recreates net_at l Hnet Hok 0%nat 0%nat 0%nat w)
      as (w' & Hloop & Hcontent).
    unfold importTodos. rewrite Hloop.
    destruct (0 <? 0 + List.length l)%nat; cbn; exact Hcontent.
Qed.

Lemma import_of_export_recreates_witness :
  [gym; report; milk] = todos (st sample_world)
  /\ isValidFormat (map item_of [gym; report; milk]) = true
  /\ map content
       (todos (st (importTodos (fun _ => online)
                     (map item_of [gym; report; milk]) sample_world)))
     = rev (map content [gym; report; milk])
       ++ map content (todos (st sample_world)).
Proof.
  apply (import_of_export_recreates (fun _ => online) sample_world sample_world
           [gym; report; milk]).
  - reflexivity.
  - repeat constructor.
  - intros k. reflexivity.
Defined.

(** ** Statistics *)

(** On a cache whose statuses are all of the enumerated set, the three
    status counters add up to the total. *)
Theorem updateStats_counts_add_up (s : State) :
  Forall (fun t => in_enum status_enum (status t) = true) (todos s) ->
  (todoCount (updateStats s) + progressCount (updateStats s)
   + completedCount (updateStats s) = total (updateStats s))%nat.
Proof.
  unfold updateStats, count_status. cbn [total todoCount progressCount
                                           completedCount].
  induction 1 as [|t l Ht Hl IH]; [reflexivity|].
  cbn [filter List.length]. unfold in_enum, status_enum in Ht.
  cbn [existsb] in Ht. rewrite !orb_true_iff, !String.eqb_eq in Ht.
  destruct Ht as [->|[->|[->|Ht]]]; [| | |discriminate Ht];
    cbn [String.eqb Ascii.eqb Bool.eqb andb List.length]; lia.
Qed.

Lemma updateStats_counts_add_up_witness :
  (todoCount (updateStats sample_state) + progressCount (updateStats sample_state)
   + completedCount (updateStats sample_state)
   = total (updateStats sample_state))%nat.
Proof.
  apply (updateStats_counts_add_up sample_state). repeat constructor.
Defined.

(** ** Toggling *)

(** A status-only update of a stored task to a status of the
    enumerated set, when the request succeeds. *)
Lemma updateTodo_status (n : Net) (id : ObjectId) (s : string) (w : World)
    (t0 : Todo) :
  request_succeeds n = true ->
  in_enum status_enum s = true ->
  findById id (docs (db w)) = Some t0 ->
  let t' := mkTodo (_id t0) (title t0) s (priority t0) (category t0)
              (dueDate t0) (createdAt t0) in
  updateTodo n id (status_body (Some s)) w
  = (Ok t',
     mkWorld (set_todos (replaceById id t' (todos (st w))) (st w))
       (mkDb (replaceById id t' (docs (db w))) (nextId (db w)))
       (sent w ++ [PUT_todo (WellFormed id) (status_body (Some s))])
       (shown w)).
Proof.
  intros Hn Hs Hf. apply andb_true_iff in Hn as [Hn Hd]. cbv zeta.
  assert (Hput : put_todo (srv n) (WellFormed id) (status_body (Some s)) (db w)
                 = (mkResponse 200 (PTodo (apply_update
                      (mkCast None (Some s) None None None) t0)),
                    mkDb (replaceById id (apply_update
                      (mkCast None (Some s) None None None) t0) (docs (db w)))
                      (nextId (db w)))).
  { unfold put_todo, findByIdAndUpdate.
    now rewrite (validate_status_update s Hs), Hd, Hf. }
  unfold updateTodo.
  rewrite (apiRequest_ok n (PUT_todo (WellFormed id) (status_body (Some s))) w
             _ _ Hn Hput eq_refl).
  reflexivity.
Qed.

(** Toggling the checkbox of a stored task, when the request succeeds:
    a completed task becomes 'todo' and any other task 'completed', no
    other field changes, and a toast is raised only on completing. *)
Theorem handleToggleComplete_flips (n : Net) (id : ObjectId)
    (currentStatus : string) (w : World) (t0 : Todo) :
  request_succeeds n = true ->
  findById id (docs (db w)) = Some t0 ->
  let s := if String.eqb currentStatus "completed" then "todo"
           else "completed" in
  let t' := mkTodo (_id t0) (title t0) s (priority t0) (category t0)
              (dueDate t0) (createdAt t0) in
  let w' := handleToggleComplete n id currentStatus w in
  findById id (docs (db w')) = Some t'
  /\ todos (st w') = replaceById id t' (todos (st w))
  /\ shown w'
     = shown w ++ (if String.eqb currentStatus "completed" then []
                   else [Toast "Task completed!" "success"]).
Proof.
  intros Hn Hf. cbv zeta. unfold handleToggleComplete.
  assert (Hid : _id t0 = id) by now apply findById_id in Hf.
  destruct (String.eqb currentStatus "completed").
  - rewrite (updateTodo_status n id "todo" w t0 Hn eq_refl Hf).
    cbn [String.eqb Ascii.eqb Bool.eqb andb st db shown docs todos set_todos].
    split; [|split; [reflexivity|now rewrite app_nil_r]].
    now apply (findById_replace_same id (docs (db w)) t0).
  - rewrite (updateTodo_status n id "completed" w t0 Hn eq_refl Hf).
    rewrite String.eqb_refl.
    cbn [showToast notify st db sent shown docs todos set_todos].
    split; [|split; reflexivity].
    now apply (findById_replace_same id (docs (db w)) t0).
Qed.

Lemma handleToggleComplete_flips_witness :
  let s := if String.eqb "progress" "completed" then "todo"
           else "completed" in
  let t' := mkTodo (_id gym) (title gym) s (priority gym) (category gym)
              (dueDate gym) (createdAt gym) in
  let w' := handleToggleComplete online 3%N "progress" sample_world in
  findById 3%N (docs (db w')) = Some t'
  /\ todos (st w') = replaceById 3%N t' (todos (st sample_world))
  /\ shown w'
     = shown sample_world
       ++ (if String.eqb "progress" "completed" then []
           else [Toast "Task completed!" "success"]).
Proof.
  apply (handleToggleComplete_flips online 3%N "progress" sample_world gym);
    reflexivity.
Defined.

(** ** Rendering *)

Lemma sort_nil_iff {A : Type} (e : Js.engine) (c : A -> A -> Z) (l : list A) :
  Js.sort e c l = [] <-> l = [].
Proof.
  split; intros H.
  - pose proof (sort_perm e c l) as Hp. rewrite H in Hp.
    now apply Permutation_nil in Hp.
  - now subst.
Qed.

(** What is rendered under given criteria: the empty state when no
    cached task passes the filters, with the message of the search
    whenever a search text is set, else that of the empty collection
    under 'all', else that of the status filter; and the view
    otherwise. *)
Theorem renderTodos_empty_state (e : Js.engine) (cache : list Todo)
    (filterStatus searchText sortKey : string) :
  renderTodos e (view_state cache filterStatus searchText sortKey)
  = match filter (in_view filterStatus searchText) cache with
    | [] =>
        EmptyState
          (if Js.truthy searchText
           then "No tasks found matching your search"
           else if String.eqb filterStatus "all"
                then "No tasks yet. Add one to get started!"
                else ("No " ++ filterStatus ++ " tasks")%string)
    | _ :: _ => Items (view e cache filterStatus searchText sortKey)
    end.
Proof.
  unfold renderTodos.
  change (getFilteredTodos e (view_state cache filterStatus searchText sortKey))
    with (view e cache filterStatus searchText sortKey).
  pose proof (sort_nil_iff e (compareTodos sortKey)
                (filter (in_view filterStatus searchText) cache)) as Hnil.
  rewrite <- view_unfold in Hnil.
  destruct (filter (in_view filterStatus searchText) cache) as [|x l].
  - rewrite (proj2 Hnil eq_refl).
    unfold view_state, handleSort, handleSearch, handleFilterChange, set_view.
    cbn [searchQuery currentFilter]. now rewrite truthy_toLowerCase.
  - assert (Hne : view e cache filterStatus searchText sortKey <> []).
    { intros Hv. apply Hnil in Hv. discriminate. }
    destruct (view e cache filterStatus searchText sortKey);
      [contradiction|reflexivity].
Qed.

(* ================================================================== *)
(** * The create and update handlers on any JSON body                   *)
(* ================================================================== *)

Lemma castString_json_or_string (path d : string) (v : option string) :
  castString path (json_or (option_map JString v) d)
  = Ok (Some (Js.or_default v d)).
Proof.
  destruct v as [s|]; cbn [option_map json_or json_truthy Js.or_default];
    [|reflexivity].
  now destruct (Js.truthy s).
Qed.

(** On a body whose fields are absent or strings, the create handler on
    JSON bodies is [post_todos]. *)
Lemma post_todos_json_on_strings (env : Env) (b : Body) (d : Db) :
  post_todos_json env (json_of_body b) d = post_todos env b d.
Proof.
  unfold post_todos_json, post_todos, json_of_body.
  cbn [j_title j_status j_priority j_category j_dueDate].
  destruct (b_title b) as [ttl|]; cbn [option_map]; [|reflexivity].
  cbn [json_truthy]. destruct (Js.truthy ttl); cbn [negb orb]; [|reflexivity].
  destruct (String.eqb (Js.trim ttl) ""); [reflexivity|].
  now rewrite !castString_json_or_string.
Qed.

Lemma offered_string (v : option string) :
  offered (option_map JString v)
  = match v with Some s => Text s | None => Absent end.
Proof. now destruct v. Qed.

(** On a body whose fields are absent or strings, the update handler on
    JSON bodies answers as [put_todo] does. *)
Lemma put_todo_json_on_strings (env : Env) (id : IdParam) (b : Body) (d : Db) :
  put_todo_json env id (json_of_body b) d
  = PutAnswer (fst (put_todo env id b d)) (snd (put_todo env id b d)).
Proof.
  unfold put_todo_json, json_of_body.
  cbn [j_title j_status j_priority j_category j_dueDate].
  destruct id as [text|oid]; [reflexivity|].
  rewrite !offered_string.
  destruct b as [t s p c du]; cbn [b_title b_status b_priority b_category
                                    b_dueDate].
  destruct t, s, p, c; cbn [option_map title_of_update is_refused is_null
                            text_of orb andb];
    now destruct (put_todo env (WellFormed oid) _ d).
Qed.




(** A null is not refused: with the store up, an update of a stored
    task that sets only status, to null, is accepted. *)
Lemma put_null_status_is_accepted (env : Env) (id : ObjectId) (d : Db)
    (t : Todo) :
  db_up env = true -> findById id (docs d) = Some t ->
  put_todo_json env (WellFormed id)
    (mkJsonBody None (Some JNull) None None None) d
  = PutSetsNull id.
Proof.
  intros Hup Hf. unfold put_todo_json, put_todo, findByIdAndUpdate.
  cbn [j_title j_status j_priority j_category j_dueDate title_of_update
       offered is_refused is_null text_of orb].
  change (validate_update (updates_of (mkBody None None None None None)))
    with (Ok (mkCast None None None None None) : result error CastUpdates).
  now rewrite Hup, Hf.
Qed.




(* ================================================================== *)
(** * The undo slot and the timer that empties it                       *)
(* ================================================================== *)

(** C7, at the world in which [milk] was deleted and the delete undone,
    and [gym] is then deleted while the slot-emptying timer of that
    undo is pending: the delete puts [gym] in the undo slot; the timer
    fires and empties it; the snackbar of the delete is still up and no
    other delete has come, yet undo sends no request and leaves the
    world as it is, and the cache holds no task with the title of
    [gym]. *)
Theorem C7_undo_lost_to_pending_timer :
  slotClears (st world_after_undo) = 1%nat
  /\ deletedTodo (st (handleDeleteTodo online (_id gym) world_after_undo))
     = Some gym
  /\ undoTimeout (st world_with_lost_slot) = true
  /\ deletedTodo (st world_with_lost_slot) = None
  /\ handleUndo online world_with_lost_slot = world_with_lost_slot
  /\ sent (handleUndo online world_with_lost_slot) = sent world_with_lost_slot
  /\ existsb (fun t => String.eqb (title t) (title gym))
       (todos (st (handleUndo online world_with_lost_slot))) = false.
Proof. vm_compute. repeat split. Qed.
